(** * The list comparator of hubblestack (hubblestack/comparators/list.py)

    A shallow embedding of the six rule handlers of the list comparator
    ([size], [match], [match_any], [match_all],
    [match_any_if_keyvalue_matches], [filter_compare]) together with the
    part of Python's data model the handlers rely on, and the properties
    of the handlers stated over that embedding.

    Conventions.
    - Python values are the inductive type [value].  Floats, tuples, sets
      and bytes are left out; dictionaries are insertion-ordered
      association lists with string keys (the shape YAML check
      definitions and module outputs have).
    - A computation that can raise is a [res]: [Ok v] or [Raise e].
    - The comparator orchestrator
      [hubblestack.module_runner.comparator.run] and the helper
      [runner_utils.apply_case_on_string] live outside list.py; they are
      variables of the section that holds the handlers, as are the
      builtins [str] and [str.format] that only build messages, and the
      reading of a string by the builtin [int], whose grammar (Unicode
      white space and digits, signs, underscores) is not part of the
      comparator.  The theorems hold for every such reading; the module
      [Sample] fixes one for the examples.
    - [match] sorts its two lists in place: it returns an [outcome], the
      two arguments as the call leaves them and the verdict or the
      exception. *)

From Stdlib Require Import List ZArith String Ascii Bool Lia.
From Stdlib Require Import Permutation Sorted OrderedTypeEx.
Import ListNotations.
Local Open Scope string_scope.
Local Open Scope list_scope.
Local Open Scope Z_scope.

(** ** Exceptions *)

Inductive exn : Type :=
| KeyError
| TypeError
| ValueError
| IndexError
| AttributeError.

Inductive res (A : Type) : Type :=
| Ok (a : A)
| Raise (e : exn).

Arguments Ok {A} a.
Arguments Raise {A} e.

Definition bind {A B : Type} (c : res A) (k : A -> res B) : res B :=
  match c with
  | Ok a => k a
  | Raise e => Raise e
  end.

Notation "x <- c ;; k" := (bind c (fun x => k))
  (at level 61, c at next level, right associativity).
Notation "' pat <- c ;; k" := (bind c (fun x => match x with pat => k end))
  (at level 61, pat pattern, c at next level, right associativity).

Definition is_ok {A : Type} (c : res A) : bool :=
  match c with
  | Ok _ => true
  | Raise _ => false
  end.

Fixpoint mapM {A B : Type} (f : A -> res B) (l : list A) : res (list B) :=
  match l with
  | [] => Ok []
  | x :: t => y <- f x ;; ys <- mapM f t ;; Ok (y :: ys)
  end.

(** ** Python values *)

#[local] Set Warnings "-register-all".

Inductive value : Type :=
| VNone
| VBool (b : bool)
| VInt (n : Z)
| VStr (s : string)
| VList (l : list value)
| VDict (d : list (string * value)).

Definition dict : Type := list (string * value).

Module Py.

(** [d.get(k)] on the association list of a dictionary. *)
Fixpoint lookup (k : string) (d : dict) : option value :=
  match d with
  | [] => None
  | (k', v) :: t => if String.eqb k k' then Some v else lookup k t
  end.

Definition keys (d : dict) : list string := map fst d.

(** [d[k] = v]: an existing key keeps its position, a new key goes last. *)
Fixpoint setitem (k : string) (v : value) (d : dict) : dict :=
  match d with
  | [] => [(k, v)]
  | (k', v') :: t =>
      if String.eqb k k' then (k', v) :: t else (k', v') :: setitem k v t
  end.

(** [d.update(e)]. *)
Definition update (d e : dict) : dict :=
  fold_left (fun acc kv => setitem (fst kv) (snd kv) acc) e d.

(** [isinstance(v, dict)], [isinstance(v, list)]. *)
Definition is_dict (v : value) : bool :=
  match v with VDict _ => true | _ => false end.

Definition is_list (v : value) : bool :=
  match v with VList _ => true | _ => false end.

(** The integer a [bool] or [int] stands for ([bool] is a subclass of
    [int]: [True == 1]). *)
Definition num_of (v : value) : option Z :=
  match v with
  | VBool b => Some (Z.b2z b)
  | VInt n => Some n
  | _ => None
  end.

(** [a == b], deep equality. *)
Fixpoint eq (a b : value) {struct a} : bool :=
  match a, b with
  | VNone, VNone => true
  | VBool x, VBool y => Bool.eqb x y
  | VBool x, VInt y => Z.eqb (Z.b2z x) y
  | VInt x, VBool y => Z.eqb x (Z.b2z y)
  | VInt x, VInt y => Z.eqb x y
  | VStr x, VStr y => String.eqb x y
  | VList l1, VList l2 =>
      (fix eq_list (l1 l2 : list value) {struct l1} : bool :=
         match l1, l2 with
         | [], [] => true
         | x :: t1, y :: t2 => eq x y && eq_list t1 t2
         | _, _ => false
         end) l1 l2
  | VDict d1, VDict d2 =>
      Nat.eqb (List.length d1) (List.length d2) &&
      (fix eq_items (d : dict) {struct d} : bool :=
         match d with
         | [] => true
         | (k, v) :: t =>
             match lookup k d2 with
             | Some w => eq v w
             | None => false
             end && eq_items t
         end) d1
  | _, _ => false
  end.

(** [a < b].  Numbers compare with numbers, strings with strings, lists
    with lists (at the first position where they differ, or by length);
    strings compare character by character ([String.ltb]);
    every other combination raises [TypeError]. *)
Fixpoint lt (a b : value) {struct a} : res bool :=
  match a, b with
  | VBool x, VBool y => Ok (Z.ltb (Z.b2z x) (Z.b2z y))
  | VBool x, VInt y => Ok (Z.ltb (Z.b2z x) y)
  | VInt x, VBool y => Ok (Z.ltb x (Z.b2z y))
  | VInt x, VInt y => Ok (Z.ltb x y)
  | VStr x, VStr y => Ok (String.ltb x y)
  | VList l1, VList l2 =>
      (fix lt_list (l1 l2 : list value) {struct l1} : res bool :=
         match l1, l2 with
         | _, [] => Ok false
         | [], _ :: _ => Ok true
         | x :: t1, y :: t2 => if eq x y then lt_list t1 t2 else lt x y
         end) l1 l2
  | _, _ => Raise TypeError
  end.

(** *** [int(v)]

    How [int] reads a string (the white space it strips, the characters
    it takes for decimal digits) is Python's own and is left open:
    [int_of_str s] is [Some n] when [int(s)] returns [n], and [None] when
    it raises [ValueError]. *)
Definition int (int_of_str : string -> option Z) (v : value) : res Z :=
  match v with
  | VBool b => Ok (Z.b2z b)
  | VInt n => Ok n
  | VStr s =>
      match int_of_str s with
      | Some n => Ok n
      | None => Raise ValueError
      end
  | _ => Raise TypeError
  end.

(** *** Containers *)

Definition len (v : value) : res Z :=
  match v with
  | VList l => Ok (Z.of_nat (List.length l))
  | VStr s => Ok (Z.of_nat (String.length s))
  | VDict d => Ok (Z.of_nat (List.length d))
  | _ => Raise TypeError
  end.

(** [l[i]] on a sequence: negative indices count from the end. *)
Definition index {A : Type} (l : list A) (i : Z) : option A :=
  let n := Z.of_nat (List.length l) in
  let j := if i <? 0 then i + n else i in
  if (0 <=? j) && (j <? n) then nth_error l (Z.to_nat j) else None.

Definition chars (s : string) : list value :=
  map (fun c => VStr (String c EmptyString)) (list_ascii_of_string s).

(** [c[k]]. *)
Definition getitem (c k : value) : res value :=
  match c with
  | VList l =>
      match num_of k with
      | Some i =>
          match index l i with Some v => Ok v | None => Raise IndexError end
      | None => Raise TypeError
      end
  | VStr s =>
      match num_of k with
      | Some i =>
          match index (chars s) i with
          | Some v => Ok v
          | None => Raise IndexError
          end
      | None => Raise TypeError
      end
  | VDict d =>
      match k with
      | VStr k =>
          match lookup k d with Some v => Ok v | None => Raise KeyError end
      | VList _ | VDict _ => Raise TypeError
      | _ => Raise KeyError
      end
  | _ => Raise TypeError
  end.

(** [c.get(k, default)]: only dictionaries have the method. *)
Definition get (c k default : value) : res value :=
  match c with
  | VDict d =>
      match k with
      | VStr k =>
          match lookup k d with Some v => Ok v | None => Ok default end
      | VList _ | VDict _ => Raise TypeError
      | _ => Ok default
      end
  | _ => Raise AttributeError
  end.

(** [list(c.keys())]. *)
Definition keys_of (c : value) : res (list value) :=
  match c with
  | VDict d => Ok (map VStr (keys d))
  | _ => Raise AttributeError
  end.

(** [l[0]] on the list [list(...)] builds. *)
Definition first (l : list value) : res value :=
  match l with
  | v :: _ => Ok v
  | [] => Raise IndexError
  end.

Fixpoint is_substring (p s : string) : bool :=
  String.prefix p s ||
  match s with
  | EmptyString => false
  | String _ t => is_substring p t
  end.

(** [k in c] for a string [k]. *)
Definition contains (k : string) (c : value) : res bool :=
  match c with
  | VDict d => Ok (existsb (String.eqb k) (keys d))
  | VList l => Ok (existsb (eq (VStr k)) l)
  | VStr s => Ok (is_substring k s)
  | _ => Raise TypeError
  end.

(** The elements a [for] loop over [c] visits. *)
Definition iter (c : value) : res (list value) :=
  match c with
  | VList l => Ok l
  | VStr s => Ok (chars s)
  | VDict d => Ok (map VStr (keys d))
  | _ => Raise TypeError
  end.

(** *** [list.sort]

    The sort is stable and compares with [<] only.  It is modelled by
    insertion from the left on (key, element) pairs: an element goes in
    front of the first one it is smaller than.  The keys are all computed
    before the first comparison, and a comparison that raises makes the
    sort raise. *)

Fixpoint insert (x : value * value) (l : list (value * value))
  : res (list (value * value)) :=
  match l with
  | [] => Ok [x]
  | y :: t =>
      b <- lt (fst x) (fst y) ;;
      if b then Ok (x :: y :: t)
      else t' <- insert x t ;; Ok (y :: t')
  end.

Fixpoint isort (acc l : list (value * value)) : res (list (value * value)) :=
  match l with
  | [] => Ok acc
  | x :: t => acc' <- insert x acc ;; isort acc' t
  end.

Definition sorted_by (key : value -> res value) (l : list value)
  : res (list value) :=
  ks <- mapM key l ;;
  s <- isort [] (combine ks l) ;;
  Ok (map snd s).

(** [v.sort(key=key)]: only lists have the method. *)
Definition sort (key : value -> res value) (v : value) : res (list value) :=
  match v with
  | VList l => sorted_by key l
  | _ => Raise AttributeError
  end.

End Py.

(** ** The handlers of list.py *)

(** A handler returns a verdict and a message, or raises. *)
Definition verdict : Type := (bool * string)%type.

Definition check_passed : res verdict := Ok (true, "Check Passed").

(** The sentinel message [match_any_if_keyvalue_matches] looks for. *)
Definition pass_as_key_not_found : string := "pass_as_key_not_found".

(** [args[k]] on the comparator dictionary. *)
Definition arg (args : dict) (k : string) : res value :=
  match Py.lookup k args with
  | Some v => Ok v
  | None => Raise KeyError
  end.

(** [args.get(k, default)] on the comparator dictionary. *)
Definition arg_get (args : dict) (k : string) (default : value) : value :=
  match Py.lookup k args with
  | Some v => v
  | None => default
  end.

(** What a call of [match] leaves behind: the two lists it was given, as
    the caller sees them afterwards, and what it returned.  [o_args] is the
    comparator dictionary, whose ["match"] entry is the expected list. *)
Record outcome : Type := Outcome {
  o_actual : value;
  o_args : dict;
  o_ret : res verdict
}.

(** The control flow of a loop body that may [return True, ...] early. *)
Inductive flow : Type :=
| Return_pass
| Continue (failed_once : bool).

Section Handlers.

(** [hubblestack.module_runner.comparator.run(audit_id, args, value)]:
    the orchestrator, which returns a (status, message) pair or raises.
    It is taken not to modify what it is given. *)
Variable run : string -> value -> value -> res verdict.

(** The builtin [int] on strings: [Some n] when [int(s)] returns [n],
    [None] when it raises [ValueError]. *)
Variable int_of_str : string -> option Z.

(** [runner_utils.apply_case_on_string(value, ignore_case)]. *)
Variable apply_case_on_string : value -> value -> value.

(** The builtins [str(v)] and [template.format(v1, ...)]. *)
Variable str : value -> string.
Variable format : string -> list value -> string.

(** [is_integer]: [int(value)] raises nothing but [ValueError] and
    [TypeError], which the handler turns into [False]. *)
Definition is_integer (value : value) : bool :=
  match Py.int int_of_str value with
  | Ok _ => true
  | Raise _ => false
  end.

(** The status of an orchestrator call, the message dropped. *)
Definition run_status (audit_id : string) (spec v : value) : res bool :=
  '(ret_status, _) <- run audit_id spec v ;; Ok ret_status.

(** *** size *)

Definition size (audit_id : string) (result_to_compare : value) (args : dict)
  : res verdict :=
  e <- arg args "size" ;;
  n <- Py.len result_to_compare ;;
  '(ret_status, _) <-
     run audit_id (VDict [("type", VStr "number"); ("match", e)]) (VInt n) ;;
  if ret_status then check_passed
  else Ok (false, format "list::size failure. Expected={0} Got={1}"
                         [VInt n; VStr (str e)]).

(** *** match *)

(** The sort key of [match]: the value under the first key of the first
    actual element when that element is a dictionary, the element itself
    otherwise. *)
Definition match_sort_key (first : value) : res (value -> res value) :=
  if Py.is_dict first then
    ks <- Py.keys_of first ;;
    sort_key <- Py.first ks ;;
    Ok (fun i => Py.getitem i sort_key)
  else Ok (fun i => Ok i).

(** The numeric check on the first elements; [Ok true] when it passed. *)
Definition match_fast_path (audit_id : string) (first expected_list : value)
  : res bool :=
  if is_integer first then
    e0 <- Py.getitem expected_list (VInt 0) ;;
    n <- Py.int int_of_str first ;;
    run_status audit_id (VDict [("type", VStr "number"); ("match", e0)])
               (VInt n)
  else Ok false.

(** [match] sorts the two lists it is given in place, so it is modelled
    with them as state: the result is an [outcome].  A sort that raises
    is taken to leave its list as it was (Python leaves it in some order
    of the same elements); nothing below depends on that.  When the caller
    passes one list object as both lists it is sorted twice, which gives
    what sorting two equal lists gives. *)
Definition match_ (audit_id : string) (result_to_compare : value)
  (args : dict) : outcome :=
  let expected_list := arg_get args "match" VNone in
  match result_to_compare with
  | VList ((first :: _) as l) =>
      match match_fast_path audit_id first expected_list with
      | Raise e => Outcome result_to_compare args (Raise e)
      | Ok true => Outcome result_to_compare args check_passed
      | Ok false =>
          match match_sort_key first with
          | Raise e => Outcome result_to_compare args (Raise e)
          | Ok key =>
              match Py.sorted_by key l with
              | Raise e => Outcome result_to_compare args (Raise e)
              | Ok l' =>
                  match Py.sort key expected_list with
                  | Raise e => Outcome (VList l') args (Raise e)
                  | Ok e' =>
                      Outcome (VList l')
                        (Py.setitem "match" (VList e') args)
                        (if Py.eq (VList l') (VList e') then check_passed
                         else Ok (false,
                                  format "list::match failure. Got={0}"
                                         [VList l']))
                  end
              end
          end
      end
  | _ =>
      Outcome result_to_compare args
        (Ok (false, format "list::match failure. {0} is not an instance of list"
                           [result_to_compare]))
  end.

(** *** match_any *)

(** One expected pattern against one actual element that is not a
    dictionary (the body of the inner loop). *)
Definition match_any_pattern (audit_id : string) (ignore_case : value)
  (r_compare to_compare : value) : res bool :=
  if Py.is_dict to_compare then
    ks <- Py.keys_of to_compare ;;
    dict_key <- Py.first ks ;;
    spec <- Py.getitem to_compare dict_key ;;
    has_type <- Py.contains "type" spec ;;
    if has_type then run_status audit_id spec r_compare else Ok false
  else
    Ok (Py.eq (apply_case_on_string to_compare ignore_case)
              (apply_case_on_string r_compare ignore_case)).

Fixpoint match_any_direct (audit_id : string) (ignore_case : value)
  (r_compare : value) (patterns : list value) : res bool :=
  match patterns with
  | [] => Ok false
  | to_compare :: rest =>
      hit <- match_any_pattern audit_id ignore_case r_compare to_compare ;;
      if hit then Ok true
      else match_any_direct audit_id ignore_case r_compare rest
  end.

(** One actual element (the body of the outer loop); [Ok true] when the
    handler returns [True] at this element. *)
Definition match_any_element (audit_id : string) (args : dict)
  (ignore_case : value) (r_compare : value) : res bool :=
  hit <- (if is_integer r_compare then
            patterns <- arg args "match_any" ;;
            n <- Py.int int_of_str r_compare ;;
            run_status audit_id
              (VDict [("type", VStr "number"); ("match_any", patterns)])
              (VInt n)
          else Ok false) ;;
  if hit then Ok true
  else if Py.is_dict r_compare then
    patterns <- arg args "match_any" ;;
    run_status audit_id
      (VDict [("type", VStr "dict"); ("match_any", patterns);
              ("ignore_case", ignore_case)])
      r_compare
  else
    patterns <- arg args "match_any" ;;
    ps <- Py.iter patterns ;;
    match_any_direct audit_id ignore_case r_compare ps.

Fixpoint match_any_loop (audit_id : string) (args : dict)
  (ignore_case : value) (elements : list value) : res bool :=
  match elements with
  | [] => Ok false
  | r_compare :: rest =>
      hit <- match_any_element audit_id args ignore_case r_compare ;;
      if hit then Ok true
      else match_any_loop audit_id args ignore_case rest
  end.

Definition match_any (audit_id : string) (result_to_compare : value)
  (args : dict) : res verdict :=
  let ignore_case := arg_get args "ignore_case" (VBool false) in
  elements <- Py.iter result_to_compare ;;
  hit <- match_any_loop audit_id args ignore_case elements ;;
  if hit then check_passed
  else Ok (false, format "list::match_any failure. Got={0}"
                         [result_to_compare]).

(** *** match_all *)

(** One expected pattern against one actual element (the body of the
    inner loop): the value [ret_status] has when the body ends. *)
Definition match_all_pair (audit_id : string) (ignore_case : value)
  (to_compare r_compare : value) : res bool :=
  if Py.is_dict r_compare then
    run_status audit_id
      (VDict [("type", VStr "dict"); ("match", to_compare);
              ("ignore_case", ignore_case)])
      r_compare
  else if Py.is_dict to_compare then
    ks <- Py.keys_of to_compare ;;
    dict_key <- Py.first ks ;;
    spec <- Py.getitem to_compare dict_key ;;
    has_type <- Py.contains "type" spec ;;
    if has_type then run_status audit_id spec r_compare else Ok false
  else
    Ok (Py.eq (apply_case_on_string r_compare ignore_case)
              (apply_case_on_string to_compare ignore_case)).

(** The inner loop: [found_match] when it ends or breaks. *)
Fixpoint match_all_found (audit_id : string) (ignore_case : value)
  (to_compare : value) (elements : list value) : res bool :=
  match elements with
  | [] => Ok false
  | r_compare :: rest =>
      ret_status <- match_all_pair audit_id ignore_case to_compare r_compare ;;
      if ret_status then Ok true
      else match_all_found audit_id ignore_case to_compare rest
  end.

(** The outer loop: [Ok false] when it returns [False] at a pattern. *)
Fixpoint match_all_loop (audit_id : string) (ignore_case : value)
  (result_to_compare : value) (patterns : list value) : res bool :=
  match patterns with
  | [] => Ok true
  | to_compare :: rest =>
      elements <- Py.iter result_to_compare ;;
      found_match <- match_all_found audit_id ignore_case to_compare elements ;;
      if found_match
      then match_all_loop audit_id ignore_case result_to_compare rest
      else Ok false
  end.

Definition match_all (audit_id : string) (result_to_compare : value)
  (args : dict) : res verdict :=
  let ignore_case := arg_get args "ignore_case" (VBool false) in
  expected <- arg args "match_all" ;;
  patterns <- Py.iter expected ;;
  ok <- match_all_loop audit_id ignore_case result_to_compare patterns ;;
  if ok then check_passed
  else Ok (false, format "Check failed, got={0}" [result_to_compare]).

(** *** match_any_if_keyvalue_matches *)

(** One actual element against one expected attribute set (the body of
    the inner loop), starting with the flag [failed_once]. *)
Definition keyvalue_pair (audit_id : string) (ignore_case key_name : value)
  (r_compare arg_list : value) (failed_once : bool) : res flow :=
  actual_key <- Py.getitem r_compare key_name ;;
  expected_key <- Py.get arg_list key_name VNone ;;
  if Py.eq actual_key expected_key then
    '(ret_status, ret_val) <-
       run audit_id
         (VDict [("type", VStr "dict"); ("match", arg_list);
                 ("ignore_case", ignore_case)])
         r_compare ;;
    if ret_status && negb (String.eqb ret_val pass_as_key_not_found)
    then Ok Return_pass
    else if negb ret_status then Ok (Continue true)
    else Ok (Continue failed_once)
  else Ok (Continue failed_once).

Fixpoint keyvalue_inner (audit_id : string) (ignore_case key_name : value)
  (r_compare : value) (arg_lists : list value) (failed_once : bool)
  : res flow :=
  match arg_lists with
  | [] => Ok (Continue failed_once)
  | arg_list :: rest =>
      f <- keyvalue_pair audit_id ignore_case key_name r_compare arg_list
                         failed_once ;;
      match f with
      | Return_pass => Ok Return_pass
      | Continue failed_once' =>
          keyvalue_inner audit_id ignore_case key_name r_compare rest
                         failed_once'
      end
  end.

Fixpoint keyvalue_outer (audit_id : string) (args : dict)
  (ignore_case key_name : value) (elements : list value)
  (failed_once : bool) : res flow :=
  match elements with
  | [] => Ok (Continue failed_once)
  | r_compare :: rest =>
      spec <- arg args "match_any_if_keyvalue_matches" ;;
      expected <- Py.getitem spec (VStr "args") ;;
      arg_lists <- Py.iter expected ;;
      f <- keyvalue_inner audit_id ignore_case key_name r_compare arg_lists
                          failed_once ;;
      match f with
      | Return_pass => Ok Return_pass
      | Continue failed_once' =>
          keyvalue_outer audit_id args ignore_case key_name rest failed_once'
      end
  end.

Definition match_any_if_keyvalue_matches (audit_id : string)
  (result_to_compare : value) (args : dict) : res verdict :=
  let ignore_case := arg_get args "ignore_case" (VBool false) in
  spec <- arg args "match_any_if_keyvalue_matches" ;;
  key_name <- Py.getitem spec (VStr "match_key") ;;
  elements <- Py.iter result_to_compare ;;
  f <- keyvalue_outer audit_id args ignore_case key_name elements false ;;
  match f with
  | Return_pass => check_passed
  | Continue true =>
      Ok (false,
          format "list::match_any_if_keyvalue_matches failure. Got={0}"
                 [result_to_compare])
  | Continue false => check_passed
  end.

(** *** filter_compare *)

(** The filter loop, [filtered_list] being the list built so far. *)
Fixpoint filter_loop (audit_id : string) (filter_dict_args : value)
  (elements filtered_list : list value) : res (list value) :=
  match elements with
  | [] => Ok filtered_list
  | r_compare :: rest =>
      '(ret_status, _) <-
         run audit_id
           (VDict [("type", VStr "dict"); ("match", filter_dict_args)])
           r_compare ;;
      filter_loop audit_id filter_dict_args rest
        (if ret_status then filtered_list ++ [r_compare] else filtered_list)
  end.

(** [d.update(e)] where [e] is the [compare] rule body.  The rule schema
    makes it a mapping; Python would also take an iterable of pairs, which
    is left out here and raises. *)
Definition update_from (d : dict) (e : value) : res dict :=
  match e with
  | VDict e => Ok (Py.update d e)
  | _ => Raise TypeError
  end.

Definition filter_compare (audit_id : string) (result_to_compare : value)
  (args : dict) : res verdict :=
  spec <- arg args "filter_compare" ;;
  filter_dict_args <- Py.getitem spec (VStr "filter") ;;
  elements <- Py.iter result_to_compare ;;
  filtered_list <- filter_loop audit_id filter_dict_args elements [] ;;
  spec' <- arg args "filter_compare" ;;
  compare <- Py.getitem spec' (VStr "compare") ;;
  filter_comparator_args <- update_from [("type", VStr "list")] compare ;;
  run audit_id (VDict filter_comparator_args) (VList filtered_list).

(** Modelled from the spec: the orchestrator is outside list.py.  The
    specification has it hand a rule whose type is ["list"] to the handler
    named by the rule key present, with the same triple.
    [filter_compare_nested_match] is [filter_compare] when its second
    stage is answered that way for a [compare] body that holds a [match]
    rule.  The rule [filter_compare] builds is a new dictionary, but
    [update] copies references: its ["match"] list is the list the
    caller's [compare] holds, so the sort [match] does in place shows
    there. *)
Definition filter_compare_nested_match (audit_id : string)
  (result_to_compare : value) (args : dict) : outcome :=
  match
    spec <- arg args "filter_compare" ;;
    filter_dict_args <- Py.getitem spec (VStr "filter") ;;
    elements <- Py.iter result_to_compare ;;
    filtered_list <- filter_loop audit_id filter_dict_args elements [] ;;
    compare <- Py.getitem spec (VStr "compare") ;;
    rule <- update_from [("type", VStr "list")] compare ;;
    Ok (spec, compare, rule, filtered_list)
  with
  | Raise e => Outcome result_to_compare args (Raise e)
  | Ok (spec, compare, rule, filtered_list) =>
      let out := match_ audit_id (VList filtered_list) rule in
      Outcome result_to_compare
        (match spec, compare, Py.lookup "match" (o_args out) with
         | VDict sp, VDict c, Some sorted =>
             Py.setitem "filter_compare"
               (VDict (Py.setitem "compare"
                         (VDict (Py.setitem "match" sorted c)) sp))
               args
         | _, _, _ => args
         end)
        (o_ret out)
  end.

(** *** The six handlers *)

Inductive handler : Type :=
| Size
| Match
| MatchAny
| MatchAll
| MatchAnyIfKeyvalueMatches
| FilterCompare.

(** Calling handler [h]: what it returns. *)
Definition call (h : handler) (audit_id : string) (result_to_compare : value)
  (args : dict) : res verdict :=
  match h with
  | Size => size audit_id result_to_compare args
  | Match => o_ret (match_ audit_id result_to_compare args)
  | MatchAny => match_any audit_id result_to_compare args
  | MatchAll => match_all audit_id result_to_compare args
  | MatchAnyIfKeyvalueMatches =>
      match_any_if_keyvalue_matches audit_id result_to_compare args
  | FilterCompare => filter_compare audit_id result_to_compare args
  end.

End Handlers.

(** ** A small orchestrator for the examples

    The properties below hold for every orchestrator.  The examples that
    instantiate them need a concrete one; [Sample.run] compares numbers
    by equality and dictionaries attribute by attribute, and sends a
    ["list"] rule with a [size] back to [size] above. *)

Module Sample.

(** [int] on a string of characters with code points below 256: white
    space (tab to carriage return, space, next-line, no-break space) is
    stripped from both ends, then come an optional sign and decimal
    digits, with single underscores allowed between digits.  (The
    examples stay far below the bound recent interpreters put on the
    number of digits.) *)
Definition is_space (c : ascii) : bool :=
  let n := nat_of_ascii c in
  ((9 <=? n) && (n <=? 13) || (n =? 32) || (n =? 133) || (n =? 160))%nat.

Definition digit_of (c : ascii) : option Z :=
  let n := nat_of_ascii c in
  if ((48 <=? n) && (n <=? 57))%nat then Some (Z.of_nat (n - 48)) else None.

Fixpoint lstrip (l : list ascii) : list ascii :=
  match l with
  | c :: t => if is_space c then lstrip t else l
  | [] => []
  end.

Definition strip (l : list ascii) : list ascii :=
  rev (lstrip (rev (lstrip l))).

Fixpoint digits (acc : Z) (after_digit : bool) (l : list ascii) : option Z :=
  match l with
  | [] => if after_digit then Some acc else None
  | c :: t =>
      match digit_of c with
      | Some d => digits (10 * acc + d) true t
      | None =>
          if Ascii.eqb c "_"%char && after_digit then digits acc false t
          else None
      end
  end.

Definition int_of_str (s : string) : option Z :=
  match strip (list_ascii_of_string s) with
  | "-"%char :: t => option_map Z.opp (digits 0 false t)
  | "+"%char :: t => digits 0 false t
  | l => digits 0 false l
  end.

Definition apply_case_on_string (v ignore_case : value) : value := v.

Definition str (v : value) : string := "<value>".

Definition format (template : string) (vs : list value) : string := template.

(** Every attribute of [pattern] is in [actual] with an equal value. *)
Definition dict_match (pattern actual : value) : bool :=
  match pattern, actual with
  | VDict p, VDict a =>
      forallb (fun kv =>
                 match Py.lookup (fst kv) a with
                 | Some w => Py.eq (snd kv) w
                 | None => false
                 end) p
  | _, _ => false
  end.

Definition number_run (d : dict) (v : value) : res verdict :=
  match Py.lookup "match" d, Py.lookup "match_any" d with
  | Some e, _ => Ok (Py.eq e v, "number::match")
  | None, Some (VList ps) =>
      Ok (existsb (fun p => Py.eq p v) ps, "number::match_any")
  | _, _ => Raise KeyError
  end.

Definition dict_run (d : dict) (v : value) : res verdict :=
  match Py.lookup "match" d, Py.lookup "match_any" d with
  | Some p, _ => Ok (dict_match p v, "dict::match")
  | None, Some (VList ps) =>
      Ok (existsb (fun p => dict_match p v) ps, "dict::match_any")
  | _, _ => Raise KeyError
  end.

Definition list_run (audit_id : string) (d : dict) (v : value) : res verdict :=
  size (fun _ spec w =>
          match spec with
          | VDict n => number_run n w
          | _ => Raise TypeError
          end)
       str format audit_id v d.

Definition run (audit_id : string) (spec v : value) : res verdict :=
  match spec with
  | VDict d =>
      match Py.lookup "type" d with
      | Some (VStr t) =>
          if String.eqb t "number" then number_run d v
          else if String.eqb t "dict" then dict_run d v
          else if String.eqb t "list" then list_run audit_id d v
          else Raise KeyError
      | _ => Raise KeyError
      end
  | _ => Raise TypeError
  end.

(** An orchestrator whose mapping comparison answers with the sentinel
    message on success. *)
Definition sentinel_run (audit_id : string) (spec v : value) : res verdict :=
  match run audit_id spec v with
  | Ok (true, _) => Ok (true, pass_as_key_not_found)
  | r => r
  end.

End Sample.

(** The values the examples at the end are built from. *)

Module Examples.

Definition service (name : string) (running : bool) : value :=
  VDict [("name", VStr name); ("running", VBool running)].

Definition named (name : string) : value := VDict [("name", VStr name)].

Definition endpoint (name : string) (port : Z) : value :=
  VDict [("name", VStr name); ("port", VInt port)].


Definition keyvalue_args (expected : list value) : dict :=
  [("type", VStr "list");
   ("match_any_if_keyvalue_matches",
    VDict [("match_key", VStr "name"); ("args", VList expected)])].

Definition keyvalue_failure : res verdict :=
  Ok (false, "list::match_any_if_keyvalue_matches failure. Got={0}").

Definition filter_args : dict :=
  [("type", VStr "list");
   ("filter_compare",
    VDict [("filter", named "abc"); ("compare", VDict [("size", VInt 1)])])].

End Examples.

Import Examples.

(** ** Notions the properties are stated with *)

(** The verdict of a result, the message dropped. *)
Definition verdict_of (r : res verdict) : res bool :=
  '(status, _) <- r ;; Ok status.

(** [Ok true] and nothing else counts as a pass. *)
Definition passes (r : res bool) : bool :=
  match r with
  | Ok b => b
  | Raise _ => false
  end.

Section Notions.

Variable run : string -> value -> value -> res verdict.
Variable int_of_str : string -> option Z.
Variable apply_case_on_string : value -> value -> value.

(** The rule the filter stage of [filter_compare] hands to the mapping
    comparator, and whether an element passes it. *)
Definition filter_rule (F : value) : value :=
  VDict [("type", VStr "dict"); ("match", F)].

Definition mapping_match (audit_id : string) (F e : value) : bool :=
  passes (run_status run audit_id (filter_rule F) e).

(** [filter_compare] in the words of the specification: the list rule
    [C], evaluated by the orchestrator on the elements of [A] that pass the
    mapping comparator's match against [F]. *)
Definition filter_compare_spec (audit_id : string) (A : list value)
  (F : value) (C : dict) : res verdict :=
  run audit_id (VDict (Py.update [("type", VStr "list")] C))
      (VList (filter (mapping_match audit_id F) A)).

(** The rule [match_any_if_keyvalue_matches] hands to the mapping
    comparator for the expected attribute set [arg_list]. *)
Definition keyvalue_rule (ignore_case arg_list : value) : value :=
  VDict [("type", VStr "dict"); ("match", arg_list);
         ("ignore_case", ignore_case)].

(** What one (actual element, expected set) pair contributes to the scan
    of [match_any_if_keyvalue_matches]: the values under [match_key]
    differ; they agree and the delegated comparison succeeds; they agree
    and it fails; they agree and it succeeds with the sentinel message. *)
Inductive pair_class : Type :=
| KeyAbsent
| Matched
| Mismatched
| PassedAsKeyNotFound.

Definition classify (audit_id : string) (ignore_case key_name : value)
  (r_compare arg_list : value) : res pair_class :=
  actual_key <- Py.getitem r_compare key_name ;;
  expected_key <- Py.get arg_list key_name VNone ;;
  if Py.eq actual_key expected_key then
    '(ret_status, ret_val) <-
       run audit_id (keyvalue_rule ignore_case arg_list) r_compare ;;
    Ok (if ret_status
        then if String.eqb ret_val pass_as_key_not_found
             then PassedAsKeyNotFound else Matched
        else Mismatched)
  else Ok KeyAbsent.

Definition is_mismatched (c : res pair_class) : bool :=
  match c with
  | Ok Mismatched => true
  | _ => false
  end.

(** The two nested loops of [match_any_if_keyvalue_matches] as one scan
    over the pairs in the order the loops visit them. *)
Fixpoint keyvalue_scan (audit_id : string) (ignore_case key_name : value)
  (pairs : list (value * value)) (failed_once : bool) : res flow :=
  match pairs with
  | [] => Ok (Continue failed_once)
  | (r_compare, arg_list) :: rest =>
      f <- keyvalue_pair run audit_id ignore_case key_name r_compare arg_list
                         failed_once ;;
      match f with
      | Return_pass => Ok Return_pass
      | Continue failed_once' =>
          keyvalue_scan audit_id ignore_case key_name rest failed_once'
      end
  end.











End Notions.

(** Lists of integers and lists of strings. *)
Definition is_int (v : value) : bool :=
  match v with VInt _ => true | _ => false end.

Definition is_str (v : value) : bool :=
  match v with VStr _ => true | _ => false end.

(** Two sort keys are in order when the second is not smaller than the
    first, or the first is smaller than the second.  (Where [<] is a
    strict total order the two say the same.) *)
Definition keys_in_order (k1 k2 : value) : Prop :=
  Py.lt k2 k1 = Ok false \/ Py.lt k1 k2 = Ok true.

(** Two elements are in order under the sort key function [key]. *)
Definition in_order (key : value -> res value) (a b : value) : Prop :=
  exists ka kb, key a = Ok ka /\ key b = Ok kb /\ keys_in_order ka kb.


(** The key of the comparator dictionary each handler reads its rule
    from. *)
Definition rule_key (h : handler) : string :=
  match h with
  | Size => "size"
  | Match => "match"
  | MatchAny => "match_any"
  | MatchAll => "match_all"
  | MatchAnyIfKeyvalueMatches => "match_any_if_keyvalue_matches"
  | FilterCompare => "filter_compare"
  end.

Definition is_matched (c : res pair_class) : bool :=
  match c with
  | Ok Matched => true
  | _ => false
  end.

(** ** Properties *)

Section Properties.

Variable run : string -> value -> value -> res verdict.
Variable int_of_str : string -> option Z.
Variable apply_case_on_string : value -> value -> value.
Variable str : value -> string.
Variable format : string -> list value -> string.

(** *** size *)

(** C9.  For every list [S] and size expression [E], the verdict of
    [size] is the verdict of the numeric comparator's [match] of [E]
    against [len(S)]; [size] raises exactly when that comparison raises. *)
Theorem size_verdict (audit_id : string) (S : list value) (E : value)
  (args : dict) (H : Py.lookup "size" args = Some E) :
  verdict_of (size run str format audit_id (VList S) args) =
  verdict_of (run audit_id (VDict [("type", VStr "number"); ("match", E)])
                  (VInt (Z.of_nat (List.length S)))).
Proof.
  unfold size, arg. rewrite H. cbn [bind Py.len].
  destruct (run audit_id _ _) as [[status msg]|e]; cbn; [|reflexivity].
  destruct status; reflexivity.
Qed.

(** *** match: the guard and the numeric fast path *)

(** C7.  Given anything that is not a list, or the empty list, [match]
    returns a failed verdict whose message is built from the value it was
    given; it does not raise and changes nothing. *)
Theorem match_rejects_non_list (audit_id : string) (v : value) (args : dict)
  (H : Py.is_list v = false \/ v = VList []) :
  match_ run int_of_str format audit_id v args =
  Outcome v args
    (Ok (false,
         format "list::match failure. {0} is not an instance of list" [v])).
Proof.
  destruct H as [H | ->]; [ | reflexivity ].
  destruct v; try reflexivity; discriminate.
Qed.

(** C3.  When the first actual element parses as an integer and the
    numeric comparator's [match] of that integer against [expected[0]]
    passes, [match] returns pass at once: whatever the remaining elements
    of either list are, and leaving both lists as they were. *)
Theorem match_numeric_short_circuit (audit_id : string) (first : value)
  (rest : list value) (args : dict) (n : Z) (e0 : value) (msg : string)
  (Hint : Py.int int_of_str first = Ok n)
  (Hexp : Py.getitem (arg_get args "match" VNone) (VInt 0) = Ok e0)
  (Hrun : run audit_id (VDict [("type", VStr "number"); ("match", e0)])
              (VInt n) = Ok (true, msg)) :
  match_ run int_of_str format audit_id (VList (first :: rest)) args =
  Outcome (VList (first :: rest)) args (Ok (true, "Check Passed")).
Proof.
  unfold match_, match_fast_path, is_integer, run_status.
  rewrite Hint, Hexp. cbn [bind]. rewrite Hrun. reflexivity.
Qed.

(** *** filter_compare *)

Lemma filter_loop_filter (audit_id : string) (F : value) (A acc : list value) :
  (forall a, In a A -> is_ok (run audit_id (filter_rule F) a) = true) ->
  filter_loop run audit_id F A acc =
  Ok (acc ++ filter (mapping_match run audit_id F) A).
Proof.
  revert acc. induction A as [|a A IH]; intros acc Hrun; cbn [filter_loop filter].
  - now rewrite app_nil_r.
  - assert (Ha : is_ok (run audit_id (filter_rule F) a) = true)
      by (apply Hrun; now left).
    unfold mapping_match at 1, run_status. unfold filter_rule in Ha |- * at 1.
    destruct (run audit_id _ a) as [[status msg]|e]; [|discriminate].
    cbn [bind passes]. rewrite IH by (intros; apply Hrun; now right).
    destruct status; [|reflexivity].
    now rewrite <- app_assoc.
Qed.

(** C4.  [filter_compare] with filter [F] and rule body [C] returns
    exactly what the orchestrator returns for the list rule [C] on the
    elements of the actual list that pass the mapping comparator's match
    against [F], in their original order ([filter_compare_spec]); the
    filter stage is assumed to return a verdict for every element. *)
Theorem filter_compare_refines (audit_id : string) (A : list value)
  (args : dict) (spec F : value) (C : dict)
  (Hspec : Py.lookup "filter_compare" args = Some spec)
  (HF : Py.getitem spec (VStr "filter") = Ok F)
  (HC : Py.getitem spec (VStr "compare") = Ok (VDict C))
  (Hrun : forall a, In a A -> is_ok (run audit_id (filter_rule F) a) = true) :
  filter_compare run audit_id (VList A) args =
  filter_compare_spec run audit_id A F C.
Proof.
  unfold filter_compare, filter_compare_spec, arg.
  rewrite Hspec. cbn [bind]. rewrite HF. cbn [bind Py.iter].
  rewrite filter_loop_filter by exact Hrun.
  cbn [bind app]. rewrite HC. reflexivity.
Qed.

(** *** match_any_if_keyvalue_matches *)

Section Keyvalue.

Variables (audit_id : string) (ig key : value).

Let cls := classify run audit_id ig key.
Let scan := keyvalue_scan run audit_id ig key.

Lemma keyvalue_pair_classify (a e : value) (fo : bool) :
  keyvalue_pair run audit_id ig key a e fo =
  c <- cls a e ;;
  Ok (match c with
      | Matched => Return_pass
      | Mismatched => Continue true
      | KeyAbsent | PassedAsKeyNotFound => Continue fo
      end).
Proof.
  unfold keyvalue_pair, cls, classify, keyvalue_rule.
  destruct (Py.getitem a key) as [ka|]; cbn [bind]; [|reflexivity].
  destruct (Py.get e key VNone) as [ke|]; cbn [bind]; [|reflexivity].
  destruct (Py.eq ka ke); [|reflexivity].
  destruct (run audit_id _ a) as [[status msg]|]; cbn [bind]; [|reflexivity].
  destruct status; cbn; [|reflexivity].
  destruct (String.eqb msg pass_as_key_not_found); reflexivity.
Qed.

Lemma keyvalue_scan_app (p q : list (value * value)) (fo : bool) :
  scan (p ++ q) fo =
  f <- scan p fo ;;
  match f with
  | Return_pass => Ok Return_pass
  | Continue fo' => scan q fo'
  end.
Proof.
  revert fo. induction p as [|[a e] p IH]; intros fo; cbn; [reflexivity|].
  destruct (keyvalue_pair run audit_id ig key a e fo) as [[|fo']|]; cbn;
    auto.
Qed.

Lemma keyvalue_inner_scan (a : value) (E : list value) (fo : bool) :
  keyvalue_inner run audit_id ig key a E fo = scan (map (pair a) E) fo.
Proof.
  revert fo. induction E as [|e E IH]; intros fo; cbn; [reflexivity|].
  destruct (keyvalue_pair run audit_id ig key a e fo) as [[|fo']|]; cbn;
    auto.
Qed.

Lemma keyvalue_outer_scan (args : dict) (spec : value) (A E : list value)
  (fo : bool) :
  Py.lookup "match_any_if_keyvalue_matches" args = Some spec ->
  Py.getitem spec (VStr "args") = Ok (VList E) ->
  keyvalue_outer run audit_id args ig key A fo = scan (list_prod A E) fo.
Proof.
  intros Hspec Hargs. revert fo.
  induction A as [|a A IH]; intros fo; cbn [keyvalue_outer list_prod];
    [reflexivity|].
  unfold arg. rewrite Hspec. cbn [bind]. rewrite Hargs. cbn [bind Py.iter].
  rewrite keyvalue_scan_app, keyvalue_inner_scan.
  destruct (scan (map (pair a) E) fo) as [[|fo']|]; cbn [bind]; auto.
Qed.

(** A scan in which no pair raises and none is [Matched] runs to its end;
    the flag is set exactly when some pair is [Mismatched]. *)
Lemma keyvalue_scan_no_match (pairs : list (value * value)) (fo : bool) :
  (forall a e, In (a, e) pairs ->
     exists c, cls a e = Ok c /\ c <> Matched) ->
  scan pairs fo =
  Ok (Continue (fo || existsb (fun p => is_mismatched (cls (fst p) (snd p)))
                              pairs)).
Proof.
  revert fo. induction pairs as [|[a e] pairs IH]; intros fo Hcls;
    cbn [keyvalue_scan existsb fst snd].
  - now rewrite orb_false_r.
  - unfold scan. cbn [keyvalue_scan]. rewrite keyvalue_pair_classify.
    destruct (Hcls a e (or_introl eq_refl)) as (c & -> & Hc).
    cbn [bind is_mismatched].
    fold scan. destruct c; try congruence; cbn [bind];
      rewrite IH by (intros; apply Hcls; now right);
      cbn [orb]; try reflexivity.
    now rewrite orb_true_r.
Qed.

(** A [Matched] pair ends the scan at once, whatever follows it. *)
Lemma keyvalue_scan_match (pre post : list (value * value)) (a e : value)
  (fo : bool) :
  (forall a' e', In (a', e') pre ->
     exists c, cls a' e' = Ok c /\ c <> Matched) ->
  cls a e = Ok Matched ->
  scan (pre ++ (a, e) :: post) fo = Ok Return_pass.
Proof.
  intros Hpre Hm. rewrite keyvalue_scan_app, keyvalue_scan_no_match by exact Hpre.
  cbn [bind]. unfold scan. cbn [keyvalue_scan].
  rewrite keyvalue_pair_classify. fold cls. now rewrite Hm.
Qed.

End Keyvalue.

(** C1, as the code has it.  With [match_key] readable in every actual
    element, [match_any_if_keyvalue_matches] is tri-state.  A pair whose
    [match_key] values agree and whose delegated comparison succeeds with
    a message other than ["pass_as_key_not_found"] ([Matched]) makes the
    handler pass at once, whatever comes after it in the scan.  When the
    scan completes without such a pair, the handler fails if some
    delegated comparison failed ([Mismatched]) and passes otherwise, in
    particular when no actual element's [match_key] value equals an
    expected set's.  A delegated success carrying the sentinel message
    counts as neither. *)
Theorem keyvalue_tri_state (audit_id : string) (A E : list value)
  (args : dict) (spec key : value)
  (Hspec : Py.lookup "match_any_if_keyvalue_matches" args = Some spec)
  (Hkey : Py.getitem spec (VStr "match_key") = Ok key)
  (Hargs : Py.getitem spec (VStr "args") = Ok (VList E)) :
  let cls :=
    classify run audit_id (arg_get args "ignore_case" (VBool false)) key in
  let result :=
    match_any_if_keyvalue_matches run format audit_id (VList A) args in
  (forall pre post a e,
     list_prod A E = pre ++ (a, e) :: post ->
     (forall a' e', In (a', e') pre ->
        exists c, cls a' e' = Ok c /\ c <> Matched) ->
     cls a e = Ok Matched ->
     result = Ok (true, "Check Passed")) /\
  ((forall a e, In a A -> In e E ->
      exists c, cls a e = Ok c /\ c <> Matched) ->
   (exists a e, In a A /\ In e E /\ cls a e = Ok Mismatched) ->
   result =
   Ok (false,
       format "list::match_any_if_keyvalue_matches failure. Got={0}"
              [VList A])) /\
  ((forall a e, In a A -> In e E ->
      cls a e = Ok KeyAbsent \/ cls a e = Ok PassedAsKeyNotFound) ->
   result = Ok (true, "Check Passed")).
Proof.
  intros cls result.
  assert (Hres : result =
    f <- keyvalue_scan run audit_id
           (arg_get args "ignore_case" (VBool false)) key
           (list_prod A E) false ;;
    match f with
    | Return_pass => check_passed
    | Continue true =>
        Ok (false,
            format "list::match_any_if_keyvalue_matches failure. Got={0}"
                   [VList A])
    | Continue false => check_passed
    end).
  { unfold result, match_any_if_keyvalue_matches, arg.
    rewrite Hspec. cbn [bind]. rewrite Hkey. cbn [bind Py.iter].
    now rewrite (keyvalue_outer_scan _ _ _ args spec A E false Hspec Hargs). }
  split; [|split].
  - intros pre post a e Hsplit Hpre Hm. rewrite Hres, Hsplit.
    now rewrite keyvalue_scan_match.
  - intros Hall (a & e & Ha & He & Hmis). rewrite Hres.
    rewrite keyvalue_scan_no_match
      by (intros a' e' Hin; apply in_prod_iff in Hin; now apply Hall).
    cbn [bind orb].
    replace (existsb _ (list_prod A E)) with true; [reflexivity|].
    symmetry. apply existsb_exists. exists (a, e). split.
    + now apply in_prod.
    + cbn [fst snd]. fold cls. now rewrite Hmis.
  - intros Hall. rewrite Hres.
    rewrite keyvalue_scan_no_match.
    + cbn [bind orb].
      replace (existsb _ (list_prod A E)) with false; [reflexivity|].
      symmetry. apply not_true_is_false. intros Hex.
      apply existsb_exists in Hex. destruct Hex as ([a e] & Hin & Hmis).
      apply in_prod_iff in Hin. cbn [fst snd] in Hmis. fold cls in Hmis.
      destruct (Hall a e (proj1 Hin) (proj2 Hin)) as [H|H];
        rewrite H in Hmis; discriminate.
    + intros a e Hin. apply in_prod_iff in Hin. fold cls.
      destruct (Hall a e (proj1 Hin) (proj2 Hin)) as [H|H];
        rewrite H; eexists; (split; [reflexivity|discriminate]).
Qed.

Lemma keyvalue_outer_app (audit_id : string) (args : dict) (ig key : value)
  (p q : list value) (fo : bool) :
  keyvalue_outer run audit_id args ig key (p ++ q) fo =
  f <- keyvalue_outer run audit_id args ig key p fo ;;
  match f with
  | Return_pass => Ok Return_pass
  | Continue fo' => keyvalue_outer run audit_id args ig key q fo'
  end.
Proof.
  revert fo. induction p as [|a p IH]; intros fo; cbn [app keyvalue_outer];
    [reflexivity|].
  destruct (arg args _) as [spec|]; cbn [bind]; [|reflexivity].
  destruct (Py.getitem spec _) as [v|]; cbn [bind]; [|reflexivity].
  destruct (Py.iter v) as [E|]; cbn [bind]; [|reflexivity].
  destruct (keyvalue_inner _ _ _ _ _ _ _) as [[|fo']|]; cbn [bind]; auto.
Qed.

(** C10, as the code has it.  The [match_key] field of an actual element
    is read without a guard, once the scan reaches the element and the
    list of expected sets is not empty: when no earlier pair made the
    handler pass, an element that is a mapping without the field makes
    the handler raise [KeyError], and one that is not a mapping makes it
    raise [TypeError].  An expected set without the field is read as
    [None]: it is skipped for every element whose [match_key] value is
    not [None], and compared like any other set for an element whose
    value is [None]. *)
Theorem keyvalue_missing_key (audit_id : string) (pre post E : list value)
  (a e : value) (args : dict) (spec : value) (k : string) (fo : bool)
  (err : exn)
  (Hspec : Py.lookup "match_any_if_keyvalue_matches" args = Some spec)
  (Hkey : Py.getitem spec (VStr "match_key") = Ok (VStr k))
  (Hargs : Py.getitem spec (VStr "args") = Ok (VList (e :: E)))
  (Hpre : keyvalue_outer run audit_id args
            (arg_get args "ignore_case" (VBool false)) (VStr k) pre false =
          Ok (Continue fo))
  (Ha : (exists d, a = VDict d /\ Py.lookup k d = None /\ err = KeyError) \/
        (Py.is_dict a = false /\ err = TypeError)) :
  let ig := arg_get args "ignore_case" (VBool false) in
  match_any_if_keyvalue_matches run format audit_id
    (VList (pre ++ a :: post)) args = Raise err /\
  (forall a' d' ka fo',
     Py.lookup k d' = None ->
     Py.getitem a' (VStr k) = Ok ka ->
     keyvalue_pair run audit_id ig (VStr k) a' (VDict d') fo' =
     if Py.eq ka VNone
     then
       '(ret_status, ret_val) <-
          run audit_id (keyvalue_rule ig (VDict d')) a' ;;
       if ret_status && negb (String.eqb ret_val pass_as_key_not_found)
       then Ok Return_pass
       else if negb ret_status then Ok (Continue true)
       else Ok (Continue fo')
     else Ok (Continue fo')).
Proof.
  intros ig. split.
  - unfold match_any_if_keyvalue_matches, arg.
    rewrite Hspec. cbn [bind]. rewrite Hkey. cbn [bind Py.iter].
    fold ig in Hpre |- *. rewrite keyvalue_outer_app, Hpre. cbn [bind].
    cbn [keyvalue_outer]. unfold arg. rewrite Hspec. cbn [bind].
    rewrite Hargs. cbn [bind Py.iter keyvalue_inner]. unfold keyvalue_pair.
    assert (Hget : Py.getitem a (VStr k) = Raise err).
    { destruct Ha as [(d & -> & Hd & ->)|[Hd ->]].
      - cbn. now rewrite Hd.
      - destruct a; try reflexivity; discriminate. }
    now rewrite Hget.
  - intros a' d' ka fo' Hd Hka. unfold keyvalue_pair, keyvalue_rule.
    rewrite Hka. cbn [bind Py.get]. rewrite Hd. cbn [bind]. reflexivity.
Qed.

(** *** Sorting values of one totally ordered kind *)

Section TotalOrder.

Variables (T : Type) (emb : T -> value) (ltbT : T -> T -> bool).

Hypothesis emb_lt : forall x y, Py.lt (emb x) (emb y) = Ok (ltbT x y).
Hypothesis emb_eq : forall x y, Py.eq (emb x) (emb y) = true <-> x = y.
Hypothesis emb_not_dict : forall x, Py.is_dict (emb x) = false.
Hypothesis ltb_asym : forall x y, ltbT x y = true -> ltbT y x = false.
Hypothesis leb_trans : forall x y z,
  ltbT y x = false -> ltbT z y = false -> ltbT z x = false.
Hypothesis leb_antisym : forall x y,
  ltbT x y = false -> ltbT y x = false -> x = y.

Abbreviation leT := (fun x y => ltbT y x = false).
Abbreviation dup := (fun x => (emb x, emb x)).

Lemma insert_emb (x : T) (l : list T) :
  StronglySorted leT l ->
  exists l', Py.insert (dup x) (map dup l) = Ok (map dup l') /\
             Permutation (x :: l) l' /\ StronglySorted leT l'.
Proof.
  induction l as [|a l IH]; intros Hs.
  - exists [x]. repeat split; auto. repeat constructor.
  - cbn [map Py.insert fst]. rewrite emb_lt. cbn [bind].
    inversion Hs as [|? ? Hl Ha]; subst.
    destruct (ltbT x a) eqn:E.
    + exists (x :: a :: l). repeat split; auto.
      constructor; [assumption|]. constructor; [now apply ltb_asym|].
      eapply Forall_impl; [|exact Ha]. cbn. intros z Hz.
      apply (leb_trans x a z); [now apply ltb_asym|assumption].
    + destruct (IH Hl) as (l' & -> & Hp & Hs'). cbn [bind].
      exists (a :: l'). repeat split.
      * rewrite perm_swap. now constructor.
      * constructor; [assumption|].
        eapply Permutation_Forall; [exact Hp|]. now constructor.
Qed.

Lemma isort_emb (acc l : list T) :
  StronglySorted leT acc ->
  exists r, Py.isort (map dup acc) (map dup l) = Ok (map dup r) /\
            Permutation (acc ++ l) r /\ StronglySorted leT r.
Proof.
  revert acc. induction l as [|x l IH]; intros acc Hs.
  - exists acc. rewrite app_nil_r. auto.
  - cbn [map Py.isort].
    destruct (insert_emb x acc Hs) as (acc' & -> & Hp & Hs'). cbn [bind].
    destruct (IH acc' Hs') as (r & Hr & Hp' & Hs''). exists r.
    repeat split; auto.
    rewrite <- Hp', <- Hp. symmetry. apply Permutation_middle.
Qed.

Lemma mapM_id (l : list value) : mapM (fun i => Ok i) l = Ok l.
Proof. induction l as [|v l IH]; cbn; [|rewrite IH]; reflexivity. Qed.

Lemma sorted_by_emb (l : list T) :
  exists r, Py.sorted_by (fun i => Ok i) (map emb l) = Ok (map emb r) /\
            Permutation l r /\ StronglySorted leT r.
Proof.
  unfold Py.sorted_by. rewrite mapM_id. cbn [bind].
  replace (combine (map emb l) (map emb l)) with (map dup l)
    by (induction l as [|x l IH]; cbn; [|rewrite <- IH]; reflexivity).
  destruct (isort_emb [] l (SSorted_nil _)) as (r & Hr & Hp & Hs).
  change (@nil (value * value)) with (map dup []) at 1.
  rewrite Hr. cbn [bind]. exists r. rewrite map_map. cbn [snd].
  auto.
Qed.

Lemma sorted_unique (l1 l2 : list T) :
  StronglySorted leT l1 -> StronglySorted leT l2 -> Permutation l1 l2 ->
  l1 = l2.
Proof.
  revert l2. induction l1 as [|a l1 IH]; intros l2 H1 H2 Hp.
  - now apply Permutation_nil in Hp.
  - destruct l2 as [|b l2];
      [symmetry in Hp; now apply Permutation_nil in Hp|].
    inversion H1 as [|? ? H1' Ha]; inversion H2 as [|? ? H2' Hb]; subst.
    assert (a = b) as ->.
    { assert (Hin1 : In a (b :: l2))
        by (eapply Permutation_in; [exact Hp|now left]).
      assert (Hin2 : In b (a :: l1))
        by (eapply Permutation_in; [symmetry; exact Hp|now left]).
      destruct Hin1 as [->|Hin1]; [reflexivity|].
      destruct Hin2 as [->|Hin2]; [reflexivity|].
      rewrite Forall_forall in Ha, Hb.
      apply leb_antisym; [apply (Hb a Hin1)|apply (Ha b Hin2)]. }
    f_equal. apply IH; auto. eapply Permutation_cons_inv; exact Hp.
Qed.

Lemma eq_list_emb (l1 l2 : list T) :
  Py.eq (VList (map emb l1)) (VList (map emb l2)) = true <-> l1 = l2.
Proof.
  cbn [Py.eq]. revert l2.
  induction l1 as [|a l1 IH]; intros [|b l2]; cbn [map];
    try (split; intros; (reflexivity || discriminate)).
  rewrite andb_true_iff, emb_eq, IH. split.
  - now intros [-> ->].
  - intros [= -> ->]. auto.
Qed.

(** [match] on two lists of one totally ordered kind, past the fast
    path. *)
Lemma match_emb (audit_id : string) (x : T) (xs ys : list T) (args : dict) :
  Py.lookup "match" args = Some (VList (map emb ys)) ->
  match_fast_path run int_of_str audit_id (emb x) (VList (map emb ys)) = Ok false ->
  exists r s,
    Permutation (x :: xs) r /\ StronglySorted leT r /\
    Permutation ys s /\ StronglySorted leT s /\
    match_ run int_of_str format audit_id (VList (map emb (x :: xs))) args =
    Outcome (VList (map emb r))
      (Py.setitem "match" (VList (map emb s)) args)
      (if Py.eq (VList (map emb r)) (VList (map emb s))
       then Ok (true, "Check Passed")
       else Ok (false,
                format "list::match failure. Got={0}" [VList (map emb r)])).
Proof.
  intros Hexp Hfast.
  destruct (sorted_by_emb (x :: xs)) as (r & Hr & Hpr & Hsr).
  destruct (sorted_by_emb ys) as (s & Hs & Hps & Hss).
  exists r, s. repeat split; auto.
  unfold match_, arg_get. rewrite Hexp. cbn [map]. rewrite Hfast.
  unfold match_sort_key. rewrite emb_not_dict.
  cbn [map] in Hr. rewrite Hr. cbn [Py.sort]. rewrite Hs. reflexivity.
Qed.

Lemma match_emb_multiset (audit_id : string) (x : T) (xs ys : list T)
  (args : dict) :
  Py.lookup "match" args = Some (VList (map emb ys)) ->
  match_fast_path run int_of_str audit_id (emb x) (VList (map emb ys)) = Ok false ->
  let out := match_ run int_of_str format audit_id (VList (map emb (x :: xs))) args in
  (Permutation (x :: xs) ys -> o_ret out = Ok (true, "Check Passed")) /\
  (~ Permutation (x :: xs) ys ->
   exists l', o_ret out =
              Ok (false, format "list::match failure. Got={0}" [VList l'])).
Proof.
  intros Hexp Hfast out.
  destruct (match_emb audit_id x xs ys args Hexp Hfast)
    as (r & s & Hpr & Hsr & Hps & Hss & Hout).
  unfold out. rewrite Hout. cbn [o_ret]. split.
  - intros Hp. assert (r = s) as ->.
    { apply sorted_unique; auto. now rewrite <- Hpr, Hp. }
    now rewrite (proj2 (eq_list_emb s s) eq_refl).
  - intros Hnp. destruct (Py.eq _ _) eqn:E.
    + apply eq_list_emb in E. subst s. elim Hnp. now rewrite Hpr.
    + eauto.
Qed.

End TotalOrder.

Lemma str_ltb_asym (x y : string) :
  String.ltb x y = true -> String.ltb y x = false.
Proof.
  unfold String.ltb. rewrite (String.compare_antisym y x).
  destruct (String.compare x y); cbn; congruence.
Qed.

Lemma str_leb_antisym (x y : string) :
  String.ltb x y = false -> String.ltb y x = false -> x = y.
Proof.
  unfold String.ltb. rewrite (String.compare_antisym y x).
  destruct (String.compare x y) eqn:E; cbn; try congruence.
  intros _ _. now apply String.compare_eq_iff.
Qed.

Lemma str_leb_trans (x y z : string) :
  String.ltb y x = false -> String.ltb z y = false -> String.ltb z x = false.
Proof.
  intros Hyx Hzy. destruct (String.ltb z x) eqn:Hzx; [|reflexivity].
  unfold String.ltb in *.
  destruct (String.compare z x) eqn:Ezx; try discriminate.
  destruct (String.compare y x) eqn:Eyx; try discriminate.
  - apply String.compare_eq_iff in Eyx. subst y. now rewrite Ezx in Hzy.
  - assert (Exy : String.compare x y = Lt)
      by (rewrite String.compare_antisym, Eyx; reflexivity).
    apply String_as_OT.cmp_lt in Ezx, Exy.
    assert (Ezy := String_as_OT.lt_trans _ _ _ Ezx Exy).
    apply String_as_OT.cmp_lt in Ezy. unfold String_as_OT.cmp in Ezy.
    now rewrite Ezy in Hzy.
Qed.

Lemma forallb_is_int (l : list value) :
  forallb is_int l = true -> exists xs, l = map VInt xs.
Proof.
  induction l as [|v l IH]; cbn; [now exists []|].
  intros H. apply andb_true_iff in H. destruct H as [Hv Hl].
  destruct v; try discriminate. destruct (IH Hl) as (xs & ->).
  now exists (n :: xs).
Qed.

Lemma forallb_is_str (l : list value) :
  forallb is_str l = true -> exists xs, l = map VStr xs.
Proof.
  induction l as [|v l IH]; cbn; [now exists []|].
  intros H. apply andb_true_iff in H. destruct H as [Hv Hl].
  destruct v; try discriminate. destruct (IH Hl) as (xs & ->).
  now exists (s :: xs).
Qed.

Lemma Permutation_map_inj {T : Type} (f : T -> value) (xs ys : list T) :
  (forall x y, f x = f y -> x = y) ->
  Permutation (map f xs) (map f ys) <-> Permutation xs ys.
Proof.
  intros Hinj. split; [|apply Permutation_map].
  intros Hp. apply Permutation_map_inv in Hp. destruct Hp as (zs & Hz & Hp).
  assert (xs = zs) as ->; [|now symmetry].
  clear Hp. revert zs Hz.
  induction xs as [|x xs IH]; intros [|z zs]; cbn; try discriminate; auto.
  intros [= Hx Hxs]. f_equal; auto.
Qed.

(** X15.  What [match] does guarantee.  For a non-empty actual list and an
    expected list that are both lists of integers, or both lists of
    strings, and when the numeric check on the first elements does not
    pass, [match] returns pass if the two lists have the same multiset
    content and fail otherwise. *)
Theorem match_multiset (audit_id : string) (first : value)
  (rest B : list value) (args : dict)
  (Hexp : Py.lookup "match" args = Some (VList B))
  (Hkind : forallb is_int (first :: rest ++ B) = true \/
           forallb is_str (first :: rest ++ B) = true)
  (Hfast : match_fast_path run int_of_str audit_id first (VList B) = Ok false) :
  let out := match_ run int_of_str format audit_id (VList (first :: rest)) args in
  (Permutation (first :: rest) B -> o_ret out = Ok (true, "Check Passed")) /\
  (~ Permutation (first :: rest) B ->
   exists l', o_ret out =
              Ok (false, format "list::match failure. Got={0}" [VList l'])).
Proof.
  intros out.
  assert (Hsplit : forallb is_int (first :: rest) = true /\
                   forallb is_int B = true \/
                   forallb is_str (first :: rest) = true /\
                   forallb is_str B = true).
  { change (first :: rest ++ B) with ((first :: rest) ++ B) in Hkind.
    rewrite !forallb_app, !andb_true_iff in Hkind. exact Hkind. }
  destruct Hsplit as [[HA HB]|[HA HB]].
  - apply forallb_is_int in HA, HB.
    destruct HA as ([|x xs] & HA); [discriminate|]. destruct HB as (ys & ->).
    cbn [map] in HA. injection HA as -> ->.
    assert (Hinj : forall a b : Z, VInt a = VInt b -> a = b) by congruence.
    destruct (match_emb_multiset Z VInt Z.ltb) with
      (audit_id := audit_id) (x := x) (xs := xs) (ys := ys) (args := args)
      as [Hpass Hfail]; auto; intros; try lia.
    { cbn. apply Z.eqb_eq. }
    split; intros Hp.
    + apply Hpass. now apply (Permutation_map_inj VInt (x :: xs) ys Hinj).
    + apply Hfail. intros Hq. apply Hp.
      now apply (Permutation_map_inj VInt (x :: xs) ys Hinj).
  - apply forallb_is_str in HA, HB.
    destruct HA as ([|x xs] & HA); [discriminate|]. destruct HB as (ys & ->).
    cbn [map] in HA. injection HA as -> ->.
    assert (Hinj : forall a b : string, VStr a = VStr b -> a = b)
      by congruence.
    destruct (match_emb_multiset string VStr String.ltb) with
      (audit_id := audit_id) (x := x) (xs := xs) (ys := ys) (args := args)
      as [Hpass Hfail]; auto.
    { intros. cbn. apply String.eqb_eq. }
    { apply str_ltb_asym. }
    { apply str_leb_trans. }
    { apply str_leb_antisym. }
    split; intros Hp.
    + apply Hpass. now apply (Permutation_map_inj VStr (x :: xs) ys Hinj).
    + apply Hfail. intros Hq. apply Hp.
      now apply (Permutation_map_inj VStr (x :: xs) ys Hinj).
Qed.

(** *** list.sort on arbitrary values *)

Abbreviation pairs_in_order :=
  (fun p q : value * value => keys_in_order (fst p) (fst q)).

Lemma insert_perm (x : value * value) (l l' : list (value * value)) :
  Py.insert x l = Ok l' -> Permutation (x :: l) l'.
Proof.
  revert l'. induction l as [|y t IH]; intros l'; cbn [Py.insert].
  - now intros [= <-].
  - destruct (Py.lt (fst x) (fst y)) as [[|]|]; cbn [bind]; try discriminate.
    + now intros [= <-].
    + destruct (Py.insert x t) as [t'|]; cbn [bind]; try discriminate.
      intros [= <-]. rewrite perm_swap. constructor. now apply IH.
Qed.

Lemma insert_hd (x y : value * value) (l l' : list (value * value)) :
  Py.insert x l = Ok l' -> pairs_in_order y x ->
  HdRel pairs_in_order y l -> HdRel pairs_in_order y l'.
Proof.
  destruct l as [|z t]; cbn [Py.insert].
  - intros [= <-] Hyx _. now constructor.
  - destruct (Py.lt (fst x) (fst z)) as [[|]|]; cbn [bind]; try discriminate.
    + intros [= <-] Hyx _. now constructor.
    + destruct (Py.insert x t) as [t'|]; cbn [bind]; try discriminate.
      intros [= <-] _ Hyz. inversion Hyz; subst. now constructor.
Qed.

Lemma insert_sorted (x : value * value) (l l' : list (value * value)) :
  Sorted pairs_in_order l -> Py.insert x l = Ok l' ->
  Sorted pairs_in_order l'.
Proof.
  revert l'. induction l as [|y t IH]; intros l' Hs; cbn [Py.insert].
  - intros [= <-]. repeat constructor.
  - inversion Hs as [|? ? Ht Hy]; subst.
    destruct (Py.lt (fst x) (fst y)) as [[|]|] eqn:E; cbn [bind];
      try discriminate.
    + intros [= <-]. constructor; [assumption|]. constructor. now right.
    + destruct (Py.insert x t) as [t'|] eqn:Et; cbn [bind]; try discriminate.
      intros [= <-]. constructor; [now apply IH|].
      eapply insert_hd; eauto. now left.
Qed.

Lemma isort_sorted (acc l r : list (value * value)) :
  Sorted pairs_in_order acc -> Py.isort acc l = Ok r ->
  Permutation (acc ++ l) r /\ Sorted pairs_in_order r.
Proof.
  revert acc. induction l as [|x l IH]; intros acc Hs; cbn [Py.isort].
  - intros [= <-]. now rewrite app_nil_r.
  - destruct (Py.insert x acc) as [acc'|] eqn:E; cbn [bind]; try discriminate.
    intros Hr. destruct (IH acc' (insert_sorted _ _ _ Hs E) Hr) as [Hp Hs'].
    split; [|assumption].
    rewrite <- Hp, <- (insert_perm _ _ _ E). symmetry.
    apply Permutation_middle.
Qed.

Lemma mapM_combine (key : value -> res value) (l ks : list value) :
  mapM key l = Ok ks ->
  map snd (combine ks l) = l /\
  Forall (fun p => key (snd p) = Ok (fst p)) (combine ks l).
Proof.
  revert ks. induction l as [|x l IH]; intros ks; cbn [mapM].
  - intros [= <-]. now split.
  - destruct (key x) as [k|] eqn:E; cbn [bind]; try discriminate.
    destruct (mapM key l) as [ks'|]; cbn [bind]; try discriminate.
    intros [= <-]. destruct (IH ks' eq_refl) as [Hm Hf]. cbn. split.
    + now rewrite Hm.
    + now constructor.
Qed.

(** A sort that returns leaves a permutation of the list in which every
    two neighbours are in order under the key. *)
Lemma sorted_by_sorted (key : value -> res value) (l l' : list value) :
  Py.sorted_by key l = Ok l' ->
  Permutation l l' /\ Sorted (in_order key) l'.
Proof.
  unfold Py.sorted_by.
  destruct (mapM key l) as [ks|] eqn:Ek; cbn [bind]; try discriminate.
  destruct (Py.isort [] (combine ks l)) as [s|] eqn:Es; cbn [bind];
    try discriminate.
  intros [= <-].
  destruct (mapM_combine key l ks Ek) as [Hm Hf].
  destruct (isort_sorted [] _ s (Sorted_nil _) Es) as [Hp Hs].
  cbn [app] in Hp. split.
  - rewrite <- Hm at 1. now apply Permutation_map.
  - assert (Hf' : Forall (fun p => key (snd p) = Ok (fst p)) s)
      by (eapply Permutation_Forall; eauto).
    clear - Hs Hf'. induction Hs as [|p s Hs IH Hhd]; cbn [map].
    + constructor.
    + inversion Hf' as [|? ? Hp Hf'']; subst.
      constructor; [now apply IH|].
      destruct Hhd as [|q s' Hpq]; cbn [map]; constructor.
      inversion Hf'' as [|? ? Hq _]; subst.
      exists (fst p), (fst q). auto.
Qed.

Lemma lookup_setitem_eq (k : string) (v : value) (d : dict) :
  Py.lookup k (Py.setitem k v d) = Some v.
Proof.
  induction d as [|[k' v'] d IH]; cbn.
  - now rewrite String.eqb_refl.
  - destruct (String.eqb k k') eqn:E; cbn; now rewrite E.
Qed.

Lemma lookup_setitem_neq (k k' : string) (v : value) (d : dict) :
  k' <> k -> Py.lookup k' (Py.setitem k v d) = Py.lookup k' d.
Proof.
  intros Hne. induction d as [|[k0 v0] d IH]; cbn.
  - apply String.eqb_neq in Hne. now rewrite Hne.
  - destruct (String.eqb k k0) eqn:E; cbn.
    + apply String.eqb_eq in E. subst k0.
      apply String.eqb_neq in Hne. now rewrite Hne.
    + now rewrite IH.
Qed.

End Properties.

(** ** Further properties of the handlers *)

Section Further.

Variable run : string -> value -> value -> res verdict.
Variable int_of_str : string -> option Z.
Variable apply_case_on_string : value -> value -> value.
Variable str : value -> string.
Variable format : string -> list value -> string.

(** *** match_all *)

Lemma match_all_found_app (audit_id : string) (ig p : value)
  (A B : list value) :
  match_all_found run apply_case_on_string audit_id ig p A = Ok true ->
  match_all_found run apply_case_on_string audit_id ig p (A ++ B) = Ok true.
Proof.
  induction A as [|a A IH]; cbn [app match_all_found]; [discriminate|].
  destruct (match_all_pair _ _ _ _ p a) as [[|]|]; cbn [bind]; auto.
Qed.

(** The outer loop passes exactly when the inner scan finds a match for
    every pattern. *)
Lemma match_all_loop_true (audit_id : string) (ig : value) (A ps : list value) :
  match_all_loop run apply_case_on_string audit_id ig (VList A) ps = Ok true <->
  Forall (fun p => match_all_found run apply_case_on_string audit_id ig p A =
                   Ok true) ps.
Proof.
  induction ps as [|p ps IH]; cbn [match_all_loop Py.iter bind].
  - split; auto.
  - destruct (match_all_found _ _ _ _ p A) as [[|]|] eqn:E; cbn [bind].
    + rewrite IH. split; [now constructor|]. now inversion 1.
    + split; [discriminate|]. inversion 1; congruence.
    + split; [discriminate|]. inversion 1; congruence.
Qed.

Lemma match_all_passed (audit_id : string) (v : value) (args : dict)
  (m : string) :
  match_all run apply_case_on_string format audit_id v args = Ok (true, m) ->
  exists expected ps,
    Py.lookup "match_all" args = Some expected /\
    Py.iter expected = Ok ps /\
    match_all_loop run apply_case_on_string audit_id
      (arg_get args "ignore_case" (VBool false)) v ps = Ok true.
Proof.
  unfold match_all, arg.
  destruct (Py.lookup "match_all" args) as [expected|]; [|discriminate].
  cbn [bind]. destruct (Py.iter expected) as [ps|] eqn:Hi; [|discriminate].
  cbn [bind].
  destruct (match_all_loop _ _ _ _ v ps) as [[|]|] eqn:Hl; cbn [bind];
    try discriminate.
  intros _. exists expected, ps. auto.
Qed.

(** X1.  A pass of [match_all] survives any elements added at the end of
    the actual list: each pattern is still found where it was found before,
    and the added elements are never compared, so nothing is asked of
    them. *)
Theorem match_all_pass_extends (audit_id : string) (A B : list value)
  (args : dict) (m : string)
  (Hpass : match_all run apply_case_on_string format audit_id (VList A) args =
           Ok (true, m)) :
  match_all run apply_case_on_string format audit_id (VList (A ++ B)) args =
  Ok (true, "Check Passed").
Proof.
  destruct (match_all_passed _ _ _ _ Hpass) as (expected & ps & He & Hi & Hl).
  unfold match_all, arg. rewrite He. cbn [bind]. rewrite Hi. cbn [bind].
  apply match_all_loop_true in Hl.
  replace (match_all_loop _ _ _ _ (VList (A ++ B)) ps) with (@Ok bool true);
    [reflexivity|].
  symmetry. apply match_all_loop_true.
  eapply Forall_impl; [|exact Hl]. cbn. intros p.
  apply match_all_found_app.
Qed.


(** X3.  The two empty cases of [match_all].  With no expected pattern it
    passes whatever the actual value is, even one that cannot be iterated;
    with at least one pattern and an empty actual list it fails, and the
    orchestrator is not consulted. *)
Theorem match_all_empty (audit_id : string) (ps : list value) (args : dict)
  (Hexp : Py.lookup "match_all" args = Some (VList ps)) :
  (ps = [] ->
   forall v, match_all run apply_case_on_string format audit_id v args =
             Ok (true, "Check Passed")) /\
  (ps <> [] ->
   match_all run apply_case_on_string format audit_id (VList []) args =
   Ok (false, format "Check failed, got={0}" [VList []])).
Proof.
  unfold match_all, arg. rewrite Hexp. cbn [bind Py.iter]. split.
  - now intros ->.
  - destruct ps as [|p ps]; [congruence|]. reflexivity.
Qed.

(** *** match_any *)

Lemma match_any_loop_app (audit_id : string) (args : dict) (ig : value)
  (A B : list value) :
  match_any_loop run int_of_str apply_case_on_string audit_id args ig A = Ok true ->
  match_any_loop run int_of_str apply_case_on_string audit_id args ig (A ++ B) = Ok true.
Proof.
  induction A as [|a A IH]; cbn [app match_any_loop]; [discriminate|].
  destruct (match_any_element _ _ _ _ _ _ a) as [[|]|]; cbn [bind]; auto.
Qed.

(** X4.  A pass of [match_any] survives any elements added at the end of
    the actual list: the scan stops at the element that passed before and
    never looks at the added ones. *)
Theorem match_any_pass_extends (audit_id : string) (A B : list value)
  (args : dict) (m : string)
  (Hpass : match_any run int_of_str apply_case_on_string format audit_id (VList A) args =
           Ok (true, m)) :
  match_any run int_of_str apply_case_on_string format audit_id (VList (A ++ B)) args =
  Ok (true, "Check Passed").
Proof.
  revert Hpass. unfold match_any. cbn [Py.iter bind].
  destruct (match_any_loop _ _ _ _ _ _ A) as [[|]|] eqn:E; cbn [bind];
    try discriminate.
  intros _. now rewrite (match_any_loop_app _ _ _ A B E).
Qed.




(** *** match *)

Lemma eq_list_length (l1 l2 : list value) :
  Py.eq (VList l1) (VList l2) = true -> List.length l1 = List.length l2.
Proof.
  cbn [Py.eq]. revert l2.
  induction l1 as [|x l1 IH]; intros [|y l2]; try discriminate;
    [reflexivity|].
  intros H. apply andb_true_iff in H. cbn [List.length]. f_equal.
  apply IH. exact (proj2 H).
Qed.

(** X7.  Only the numeric fast path lets lists of different lengths
    match: when it does not pass, an actual list and an expected list of
    different lengths never get a pass verdict from [match], whatever
    their elements are. *)
Theorem match_length_mismatch (audit_id : string) (first : value)
  (rest B : list value) (args : dict)
  (Hexp : Py.lookup "match" args = Some (VList B))
  (Hlen : List.length (first :: rest) <> List.length B)
  (Hfast : match_fast_path run int_of_str audit_id first (VList B) <> Ok true) :
  forall m,
    o_ret (match_ run int_of_str format audit_id (VList (first :: rest)) args) <>
    Ok (true, m).
Proof.
  intros m. unfold match_, arg_get. rewrite Hexp.
  destruct (match_fast_path run int_of_str audit_id first (VList B)) as [[|]|];
    cbn [o_ret]; try congruence; try discriminate.
  destruct (match_sort_key first) as [key|]; cbn [o_ret]; [|discriminate].
  destruct (Py.sorted_by key (first :: rest)) as [l'|] eqn:El; cbn [o_ret];
    [|discriminate].
  cbn [Py.sort].
  destruct (Py.sorted_by key B) as [e'|] eqn:Ee; cbn [o_ret]; [|discriminate].
  destruct (Py.eq (VList l') (VList e')) eqn:E; [|discriminate].
  exfalso. apply Hlen.
  apply eq_list_length in E.
  rewrite (Permutation_length (proj1 (sorted_by_sorted _ _ _ El))).
  rewrite (Permutation_length (proj1 (sorted_by_sorted _ _ _ Ee))).
  exact E.
Qed.

Lemma mapM_first_error {X Y : Type} (f : X -> res Y) (pre post : list X)
  (b : X) (err : exn) :
  (forall x, In x pre -> is_ok (f x) = true) ->
  f b = Raise err ->
  mapM f (pre ++ b :: post) = Raise err.
Proof.
  intros Hpre Hb. induction pre as [|x pre IH]; cbn [app mapM].
  - now rewrite Hb.
  - assert (Hx := Hpre x (or_introl eq_refl)).
    destruct (f x); [|discriminate]. cbn [bind].
    rewrite IH by (intros; apply Hpre; now right). reflexivity.
Qed.

(** X8.  [match] on mappings sorts by the first key of the first actual
    mapping, and the expected list is sorted second.  When the actual list
    sorts and an expected element cannot give a value for that key (a
    mapping without it: [KeyError]; not a mapping: [TypeError]), [match]
    raises that error with the actual list already sorted in place and the
    expected list as it was. *)
Theorem match_expected_key_error (audit_id : string) (k : string)
  (v0 : value) (d0 : dict) (rest l' pre post : list value) (b : value)
  (args : dict) (err : exn)
  (Hsort : Py.sorted_by (fun i => Py.getitem i (VStr k))
             (VDict ((k, v0) :: d0) :: rest) = Ok l')
  (Hexp : Py.lookup "match" args = Some (VList (pre ++ b :: post)))
  (Hpre : forall x, In x pre -> is_ok (Py.getitem x (VStr k)) = true)
  (Hb : Py.getitem b (VStr k) = Raise err) :
  match_ run int_of_str format audit_id (VList (VDict ((k, v0) :: d0) :: rest)) args =
  Outcome (VList l') args (Raise err).
Proof.
  unfold match_, arg_get. rewrite Hexp.
  cbn [match_fast_path is_integer Py.int match_sort_key Py.is_dict
       Py.keys_of Py.keys map fst Py.first bind].
  rewrite Hsort. cbn [Py.sort]. unfold Py.sorted_by.
  rewrite (mapM_first_error _ pre post b err Hpre Hb). reflexivity.
Qed.

(** X9.  [match] consults the orchestrator for the numeric check only: on
    an actual list whose first element does not parse as an integer, its
    whole outcome (verdict, message, and the two lists afterwards) is the
    same under every orchestrator. *)
Theorem match_ignores_orchestrator
  (run' : string -> value -> value -> res verdict) (audit_id : string)
  (first : value) (rest : list value) (args : dict)
  (Hint : is_integer int_of_str first = false) :
  match_ run int_of_str format audit_id (VList (first :: rest)) args =
  match_ run' int_of_str format audit_id (VList (first :: rest)) args.
Proof.
  unfold match_, match_fast_path. now rewrite Hint.
Qed.

(** *** match on mappings with distinct sort keys *)

Section Keyed.

Variables (T : Type) (embk : T -> value) (ltbT : T -> T -> bool).

Hypothesis embk_lt : forall x y, Py.lt (embk x) (embk y) = Ok (ltbT x y).
Hypothesis ltbk_asym : forall x y, ltbT x y = true -> ltbT y x = false.
Hypothesis lebk_trans : forall x y z,
  ltbT y x = false -> ltbT z y = false -> ltbT z x = false.
Hypothesis lebk_antisym : forall x y,
  ltbT x y = false -> ltbT y x = false -> x = y.

Abbreviation leK := (fun p q : T * value => ltbT (fst q) (fst p) = false).
Abbreviation keyed := (fun p : T * value => (embk (fst p), snd p)).

Lemma insert_keyed (x : T * value) (l : list (T * value)) :
  StronglySorted leK l ->
  exists l', Py.insert (keyed x) (map keyed l) = Ok (map keyed l') /\
             Permutation (x :: l) l' /\ StronglySorted leK l'.
Proof.
  induction l as [|a l IH]; intros Hs.
  - exists [x]. repeat split; auto. repeat constructor.
  - cbn [map Py.insert fst]. rewrite embk_lt. cbn [bind].
    inversion Hs as [|? ? Hl Ha]; subst.
    destruct (ltbT (fst x) (fst a)) eqn:E.
    + exists (x :: a :: l). repeat split; auto.
      constructor; [assumption|]. constructor; [now apply ltbk_asym|].
      eapply Forall_impl; [|exact Ha]. cbn. intros z Hz.
      apply (lebk_trans (fst x) (fst a) (fst z));
        [now apply ltbk_asym|assumption].
    + destruct (IH Hl) as (l' & -> & Hp & Hs'). cbn [bind].
      exists (a :: l'). repeat split.
      * rewrite perm_swap. now constructor.
      * constructor; [assumption|].
        eapply Permutation_Forall; [exact Hp|]. now constructor.
Qed.

Lemma isort_keyed (acc l : list (T * value)) :
  StronglySorted leK acc ->
  exists r, Py.isort (map keyed acc) (map keyed l) = Ok (map keyed r) /\
            Permutation (acc ++ l) r /\ StronglySorted leK r.
Proof.
  revert acc. induction l as [|x l IH]; intros acc Hs.
  - exists acc. rewrite app_nil_r. auto.
  - cbn [map Py.isort].
    destruct (insert_keyed x acc Hs) as (acc' & -> & Hp & Hs'). cbn [bind].
    destruct (IH acc' Hs') as (r & Hr & Hp' & Hs''). exists r.
    repeat split; auto.
    rewrite <- Hp', <- Hp. symmetry. apply Permutation_middle.
Qed.

Lemma sorted_by_keyed (key : value -> res value) (kf : value -> T)
  (l : list value) :
  (forall x, In x l -> key x = Ok (embk (kf x))) ->
  exists r, Py.sorted_by key l = Ok (map snd r) /\
            Permutation (map (fun x => (kf x, x)) l) r /\
            StronglySorted leK r.
Proof.
  intros Hkey. unfold Py.sorted_by.
  assert (Hm : mapM key l = Ok (map (fun x => embk (kf x)) l)).
  { induction l as [|x l IH]; cbn [mapM map]; [reflexivity|].
    rewrite (Hkey x (or_introl eq_refl)). cbn [bind].
    rewrite IH by (intros; apply Hkey; now right). reflexivity. }
  rewrite Hm. cbn [bind].
  replace (combine (map (fun x => embk (kf x)) l) l)
    with (map keyed (map (fun x => (kf x, x)) l))
    by (clear; induction l as [|x l IH]; cbn; [|rewrite IH]; reflexivity).
  destruct (isort_keyed [] (map (fun x => (kf x, x)) l) (SSorted_nil _))
    as (r & Hr & Hp & Hs).
  change (@nil (value * value)) with (map keyed []) at 1.
  rewrite Hr. cbn [bind]. exists r. rewrite map_map. cbn [snd]. auto.
Qed.

Lemma sorted_unique_keyed (l1 l2 : list (T * value)) :
  StronglySorted leK l1 -> StronglySorted leK l2 -> Permutation l1 l2 ->
  NoDup (map fst l1) -> l1 = l2.
Proof.
  revert l2. induction l1 as [|a l1 IH]; intros l2 H1 H2 Hp Hnd.
  - now apply Permutation_nil in Hp.
  - destruct l2 as [|b l2];
      [symmetry in Hp; now apply Permutation_nil in Hp|].
    inversion H1 as [|? ? H1' Ha]; inversion H2 as [|? ? H2' Hb]; subst.
    cbn [map] in Hnd. inversion Hnd as [|? ? Hnotin Hnd']; subst.
    assert (a = b) as ->.
    { assert (Hin1 : In a (b :: l2))
        by (eapply Permutation_in; [exact Hp|now left]).
      assert (Hin2 : In b (a :: l1))
        by (eapply Permutation_in; [symmetry; exact Hp|now left]).
      destruct Hin1 as [->|Hin1]; [reflexivity|].
      destruct Hin2 as [->|Hin2]; [reflexivity|].
      rewrite Forall_forall in Ha, Hb.
      exfalso. apply Hnotin.
      rewrite (lebk_antisym (fst a) (fst b) (Hb a Hin1) (Ha b Hin2)).
      now apply in_map. }
    f_equal. apply IH; auto. eapply Permutation_cons_inv; exact Hp.
Qed.

Lemma eq_list_refl (l : list value) :
  (forall x, In x l -> Py.eq x x = true) -> Py.eq (VList l) (VList l) = true.
Proof.
  cbn [Py.eq]. induction l as [|x l IH]; intros H; [reflexivity|].
  rewrite (H x (or_introl eq_refl)). cbn [andb].
  apply IH. intros; apply H; now right.
Qed.

Lemma match_keyed_pass (audit_id : string) (k : string) (v0 : value)
  (d0 : dict) (rest B : list value) (args : dict) (kf : value -> T) :
  Py.lookup "match" args = Some (VList B) ->
  Permutation (VDict ((k, v0) :: d0) :: rest) B ->
  (forall x, In x (VDict ((k, v0) :: d0) :: rest) ->
     Py.getitem x (VStr k) = Ok (embk (kf x))) ->
  NoDup (map kf (VDict ((k, v0) :: d0) :: rest)) ->
  (forall x, In x (VDict ((k, v0) :: d0) :: rest) -> Py.eq x x = true) ->
  o_ret (match_ run int_of_str format audit_id
           (VList (VDict ((k, v0) :: d0) :: rest)) args) =
  Ok (true, "Check Passed").
Proof.
  intros Hexp Hperm Hkey Hnd Hrefl.
  set (A := VDict ((k, v0) :: d0) :: rest) in *.
  assert (HkeyB : forall x, In x B ->
                    Py.getitem x (VStr k) = Ok (embk (kf x))).
  { intros x Hx. apply Hkey. eapply Permutation_in; [symmetry|]; eauto. }
  destruct (sorted_by_keyed (fun i => Py.getitem i (VStr k)) kf A Hkey)
    as (r & Hr & Hpr & Hsr).
  destruct (sorted_by_keyed (fun i => Py.getitem i (VStr k)) kf B HkeyB)
    as (s & Hs & Hps & Hss).
  assert (r = s) as <-.
  { apply sorted_unique_keyed; auto.
    - rewrite <- Hpr, <- Hps. now apply Permutation_map.
    - eapply Permutation_NoDup; [apply Permutation_map; exact Hpr|].
      rewrite map_map. exact Hnd. }
  unfold match_, arg_get. rewrite Hexp. unfold A at 1.
  cbn [match_fast_path is_integer Py.int match_sort_key Py.is_dict
       Py.keys_of Py.keys map fst Py.first bind].
  fold A. rewrite Hr. cbn [Py.sort]. rewrite Hs. cbn [o_ret].
  rewrite eq_list_refl; [reflexivity|].
  intros x Hx. apply Hrefl.
  assert (HA : Permutation (map snd r) A).
  { rewrite <- Hpr, map_map. cbn [snd]. now rewrite map_id. }
  eapply Permutation_in; [exact HA|exact Hx].
Qed.

End Keyed.

Lemma NoDup_map_factor {X Y Z : Type} (f : X -> Y) (g : X -> Z)
  (l : list X) :
  NoDup (map g l) ->
  (forall a b, In a l -> In b l -> f a = f b -> g a = g b) ->
  NoDup (map f l).
Proof.
  induction l as [|a l IH]; cbn [map]; intros Hnd Hfg; [constructor|].
  inversion Hnd as [|? ? Hnotin Hnd']; subst. constructor.
  - intros Hin. apply in_map_iff in Hin. destruct Hin as (b & Hb & Hbl).
    apply Hnotin. rewrite (Hfg a b); auto; [|now left|now right].
    now apply in_map.
  - apply IH; auto. intros; apply Hfg; auto; now right.
Qed.

(** X10.  Lists of mappings in any order do match when the sort key tells
    the mappings apart.  Let the actual list start with a mapping whose
    first key is [k], let every element carry [k] with a string value (or
    every element an integer value), no two elements the same value, and
    let every element be equal to itself as Python mappings are.  Then
    [match] passes against every reordering of the list as the expected
    list, under every orchestrator. *)
Theorem match_mappings_distinct_keys (audit_id : string) (k : string)
  (v0 : value) (d0 : dict) (rest B : list value) (args : dict)
  (Hexp : Py.lookup "match" args = Some (VList B))
  (Hperm : Permutation (VDict ((k, v0) :: d0) :: rest) B)
  (Hkind :
     (forall x, In x (VDict ((k, v0) :: d0) :: rest) ->
        exists s, Py.getitem x (VStr k) = Ok (VStr s)) \/
     (forall x, In x (VDict ((k, v0) :: d0) :: rest) ->
        exists n, Py.getitem x (VStr k) = Ok (VInt n)))
  (Hdistinct : NoDup (map (fun x => Py.getitem x (VStr k))
                          (VDict ((k, v0) :: d0) :: rest)))
  (Hrefl : forall x, In x (VDict ((k, v0) :: d0) :: rest) ->
             Py.eq x x = true) :
  o_ret (match_ run int_of_str format audit_id
           (VList (VDict ((k, v0) :: d0) :: rest)) args) =
  Ok (true, "Check Passed").
Proof.
  destruct Hkind as [Hk|Hk].
  - set (kf := fun x => match Py.getitem x (VStr k) with
                        | Ok (VStr s) => s
                        | _ => EmptyString
                        end).
    assert (Hkey : forall x, In x (VDict ((k, v0) :: d0) :: rest) ->
                     Py.getitem x (VStr k) = Ok (VStr (kf x))).
    { intros x Hx. destruct (Hk x Hx) as (s & Hs). unfold kf.
      now rewrite Hs. }
    apply (match_keyed_pass string VStr String.ltb) with (kf := kf) (B := B);
      auto.
    + apply str_ltb_asym.
    + apply str_leb_trans.
    + apply str_leb_antisym.
    + eapply NoDup_map_factor; [exact Hdistinct|].
      intros a b Ha Hb Hab. cbn beta.
      now rewrite (Hkey a Ha), (Hkey b Hb), Hab.
  - set (kf := fun x => match Py.getitem x (VStr k) with
                        | Ok (VInt n) => n
                        | _ => 0
                        end).
    assert (Hkey : forall x, In x (VDict ((k, v0) :: d0) :: rest) ->
                     Py.getitem x (VStr k) = Ok (VInt (kf x))).
    { intros x Hx. destruct (Hk x Hx) as (n & Hn). unfold kf.
      now rewrite Hn. }
    apply (match_keyed_pass Z VInt Z.ltb) with (kf := kf) (B := B); auto;
      try (intros; lia).
    eapply NoDup_map_factor; [exact Hdistinct|].
    intros a b Ha Hb Hab. cbn beta.
    now rewrite (Hkey a Ha), (Hkey b Hb), Hab.
Qed.

(** *** match_any_if_keyvalue_matches *)

Lemma keyvalue_scan_closed (audit_id : string) (ig key : value)
  (pairs : list (value * value)) (fo : bool) :
  (forall a e, In (a, e) pairs ->
     is_ok (classify run audit_id ig key a e) = true) ->
  keyvalue_scan run audit_id ig key pairs fo =
  Ok (if existsb
           (fun p => is_matched (classify run audit_id ig key (fst p) (snd p)))
           pairs
      then Return_pass
      else Continue
             (fo ||
              existsb
                (fun p =>
                   is_mismatched
                     (classify run audit_id ig key (fst p) (snd p)))
                pairs)).
Proof.
  revert fo. induction pairs as [|[a e] pairs IH]; intros fo Hok;
    cbn [keyvalue_scan existsb fst snd].
  - now rewrite orb_false_r.
  - rewrite keyvalue_pair_classify.
    assert (Hae := Hok a e (or_introl eq_refl)).
    destruct (classify run audit_id ig key a e) as [c|]; [|discriminate].
    cbn [bind is_matched is_mismatched].
    destruct c; cbn [orb]; try reflexivity;
      rewrite IH by (intros; apply Hok; now right);
      try reflexivity.
    now rewrite orb_true_r.
Qed.

Lemma existsb_list_prod_Permutation {X Y : Type} (f : X * Y -> bool)
  (A A' : list X) (E E' : list Y) :
  Permutation A A' -> Permutation E E' ->
  existsb f (list_prod A E) = existsb f (list_prod A' E').
Proof.
  intros HA HE. apply eq_true_iff_eq. rewrite !existsb_exists.
  split; intros ([a e] & Hin & Hf); exists (a, e); split; auto;
    apply in_prod_iff in Hin; apply in_prod_iff; destruct Hin as [Ha He];
    split.
  - eapply Permutation_in; eauto.
  - eapply Permutation_in; eauto.
  - eapply Permutation_in; [symmetry|]; eauto.
  - eapply Permutation_in; [symmetry|]; eauto.
Qed.

(** X11.  When no pair of the scan raises, the verdict of
    [match_any_if_keyvalue_matches] does not depend on the order of the
    actual elements or of the expected attribute sets: it is pass exactly
    when some pair is [Matched] or no pair is [Mismatched]. *)
Theorem keyvalue_order_independent (audit_id : string)
  (A A' E E' : list value) (args args' : dict) (spec spec' key : value)
  (Hspec : Py.lookup "match_any_if_keyvalue_matches" args = Some spec)
  (Hkey : Py.getitem spec (VStr "match_key") = Ok key)
  (Hargs : Py.getitem spec (VStr "args") = Ok (VList E))
  (Hspec' : Py.lookup "match_any_if_keyvalue_matches" args' = Some spec')
  (Hkey' : Py.getitem spec' (VStr "match_key") = Ok key)
  (Hargs' : Py.getitem spec' (VStr "args") = Ok (VList E'))
  (Hcase : arg_get args' "ignore_case" (VBool false) =
           arg_get args "ignore_case" (VBool false))
  (HA : Permutation A A') (HE : Permutation E E')
  (Hok : forall a e, In a A -> In e E ->
     is_ok (classify run audit_id
              (arg_get args "ignore_case" (VBool false)) key a e) = true) :
  let cls :=
    classify run audit_id (arg_get args "ignore_case" (VBool false)) key in
  exists status,
    verdict_of (match_any_if_keyvalue_matches run format audit_id
                  (VList A) args) = Ok status /\
    verdict_of (match_any_if_keyvalue_matches run format audit_id
                  (VList A') args') = Ok status /\
    (status = true <->
     (exists a e, In a A /\ In e E /\ cls a e = Ok Matched) \/
     (forall a e, In a A -> In e E -> cls a e <> Ok Mismatched)).
Proof.
  intros cls.
  set (ig := arg_get args "ignore_case" (VBool false)) in *.
  set (fm := fun p : value * value => is_matched (cls (fst p) (snd p))).
  set (fx := fun p : value * value => is_mismatched (cls (fst p) (snd p))).
  set (status := existsb fm (list_prod A E) ||
                 negb (existsb fx (list_prod A E))).
  assert (Hone : forall (L F : list value) (d : dict) (sp : value),
    Py.lookup "match_any_if_keyvalue_matches" d = Some sp ->
    Py.getitem sp (VStr "match_key") = Ok key ->
    Py.getitem sp (VStr "args") = Ok (VList F) ->
    arg_get d "ignore_case" (VBool false) = ig ->
    (forall a e, In a L -> In e F -> is_ok (cls a e) = true) ->
    verdict_of (match_any_if_keyvalue_matches run format audit_id
                  (VList L) d) =
    Ok (existsb fm (list_prod L F) || negb (existsb fx (list_prod L F)))).
  { intros L F d sp Hs Hk Ha Hc HokL.
    unfold match_any_if_keyvalue_matches, arg.
    rewrite Hs. cbn [bind]. rewrite Hk. cbn [bind Py.iter]. rewrite Hc.
    rewrite (keyvalue_outer_scan run audit_id ig key d sp L F false Hs Ha).
    rewrite keyvalue_scan_closed
      by (intros a e Hin; apply in_prod_iff in Hin; now apply HokL).
    cbn [bind orb]. fold cls. fold fm. fold fx.
    destruct (existsb fm (list_prod L F)); [reflexivity|].
    destruct (existsb fx (list_prod L F)); reflexivity. }
  exists status. split; [|split].
  - now apply (Hone A E args spec).
  - rewrite (Hone A' E' args' spec'); auto.
    + unfold status.
      now rewrite (existsb_list_prod_Permutation fm A A' E E'),
                  (existsb_list_prod_Permutation fx A A' E E').
    + intros a e Ha He. apply Hok.
      * eapply Permutation_in; [symmetry|]; eauto.
      * eapply Permutation_in; [symmetry|]; eauto.
  - unfold status. rewrite orb_true_iff, negb_true_iff. split.
    + intros [Hm|Hx].
      * left. apply existsb_exists in Hm. destruct Hm as ([a e] & Hin & Hf).
        apply in_prod_iff in Hin. destruct Hin as [Ha He].
        exists a, e. split; [exact Ha|]. split; [exact He|].
        unfold fm in Hf. cbn [fst snd] in Hf.
        destruct (cls a e) as [[]|]; try discriminate. reflexivity.
      * right. intros a e Ha He Hmis.
        assert (Hex : existsb fx (list_prod A E) = true); [|congruence].
        apply existsb_exists. exists (a, e). split; [now apply in_prod|].
        unfold fx. cbn [fst snd]. now rewrite Hmis.
    + intros [(a & e & Ha & He & Hm)|Hno].
      * left. apply existsb_exists. exists (a, e). split; [now apply in_prod|].
        unfold fm. cbn [fst snd]. now rewrite Hm.
      * right. apply not_true_is_false. intros Hex.
        apply existsb_exists in Hex. destruct Hex as ([a e] & Hin & Hf).
        apply in_prod_iff in Hin. destruct Hin as [Ha He].
        apply (Hno a e Ha He).
        unfold fx in Hf. cbn [fst snd] in Hf.
        destruct (cls a e) as [[]|]; try discriminate. reflexivity.
Qed.

(** *** filter_compare *)

Lemma filter_idem {X : Type} (f : X -> bool) (l : list X) :
  filter f (filter f l) = filter f l.
Proof.
  induction l as [|x l IH]; cbn [filter]; [reflexivity|].
  destruct (f x) eqn:E; cbn [filter]; [rewrite E; f_equal|]; exact IH.
Qed.

(** X12.  The filter stage of [filter_compare] is idempotent: on the
    elements that pass the filter the handler returns what it returns on
    the whole list, so elements the filter rejects have no influence on the
    result. *)
Theorem filter_compare_idempotent (audit_id : string) (A : list value)
  (args : dict) (spec F : value)
  (Hspec : Py.lookup "filter_compare" args = Some spec)
  (HF : Py.getitem spec (VStr "filter") = Ok F)
  (Hrun : forall a, In a A -> is_ok (run audit_id (filter_rule F) a) = true) :
  filter_compare run audit_id
    (VList (filter (mapping_match run audit_id F) A)) args =
  filter_compare run audit_id (VList A) args.
Proof.
  unfold filter_compare, arg. rewrite Hspec. cbn [bind]. rewrite HF.
  cbn [bind Py.iter].
  rewrite (filter_loop_filter run audit_id F A []) by exact Hrun.
  rewrite (filter_loop_filter run audit_id F (filter _ A) []).
  - now rewrite filter_idem.
  - intros a Ha. apply filter_In in Ha. now apply Hrun.
Qed.

Lemma lookup_not_in (k : string) (d : dict) :
  ~ In k (Py.keys d) -> Py.lookup k d = None.
Proof.
  induction d as [|[k' v] d IH]; cbn; [reflexivity|]. intros Hn.
  destruct (String.eqb k k') eqn:E.
  - apply String.eqb_eq in E. subst. elim Hn. now left.
  - apply IH. intros Hin. apply Hn. now right.
Qed.

(** [d.update(e)] and then [get]: the value [e] has for the key, or else
    the value [d] had. *)
Lemma lookup_update (k : string) (d e : dict) :
  NoDup (Py.keys e) ->
  Py.lookup k (Py.update d e) =
  match Py.lookup k e with
  | Some v => Some v
  | None => Py.lookup k d
  end.
Proof.
  unfold Py.update. revert d.
  induction e as [|[k1 v1] e IH]; intros d Hnd; cbn [fold_left fst snd];
    [reflexivity|].
  cbn [Py.keys map fst] in Hnd. inversion Hnd as [|? ? Hnotin Hnd']; subst.
  rewrite IH by exact Hnd'. cbn [Py.lookup].
  destruct (String.eqb k k1) eqn:E.
  - apply String.eqb_eq in E. subst k1.
    rewrite (lookup_not_in k e Hnotin). apply lookup_setitem_eq.
  - destruct (Py.lookup k e); [reflexivity|].
    apply lookup_setitem_neq. now apply String.eqb_neq.
Qed.

(** X13.  The rule [filter_compare] hands to the orchestrator for its
    second stage carries every entry of [compare] unchanged and adds
    ["type": "list"] only where [compare] has no ["type"] of its own: a
    [compare] body with its own ["type"] is evaluated by the comparator it
    names, not by the list comparator. *)
Theorem filter_compare_rule (audit_id : string) (A : list value)
  (args : dict) (spec F : value) (C : dict)
  (Hspec : Py.lookup "filter_compare" args = Some spec)
  (HF : Py.getitem spec (VStr "filter") = Ok F)
  (HC : Py.getitem spec (VStr "compare") = Ok (VDict C))
  (Hnd : NoDup (Py.keys C))
  (Hrun : forall a, In a A -> is_ok (run audit_id (filter_rule F) a) = true) :
  exists rule,
    filter_compare run audit_id (VList A) args =
    run audit_id (VDict rule)
        (VList (filter (mapping_match run audit_id F) A)) /\
    forall k,
      Py.lookup k rule =
      match Py.lookup k C with
      | Some v => Some v
      | None => if String.eqb k "type" then Some (VStr "list") else None
      end.
Proof.
  exists (Py.update [("type", VStr "list")] C). split.
  - unfold filter_compare, arg. rewrite Hspec. cbn [bind]. rewrite HF.
    cbn [bind Py.iter].
    rewrite (filter_loop_filter run audit_id F A []) by exact Hrun.
    cbn [bind app]. rewrite HC. reflexivity.
  - intros k. rewrite lookup_update by exact Hnd. reflexivity.
Qed.

(** *** The rule key *)

(** X14.  [size], [match_all], [match_any_if_keyvalue_matches] and
    [filter_compare] read their rule before they look at the actual
    value: called with a comparator dictionary that lacks their key, they
    raise [KeyError] whatever the actual value is, sized and iterable or
    not. *)
Theorem missing_rule_key (h : handler) (audit_id : string) (v : value)
  (args : dict)
  (Hh : h = Size \/ h = MatchAll \/ h = MatchAnyIfKeyvalueMatches \/
        h = FilterCompare)
  (Hkey : Py.lookup (rule_key h) args = None) :
  call run int_of_str apply_case_on_string str format h audit_id v args =
  Raise KeyError.
Proof.
  destruct Hh as [-> | [-> | [-> | ->]]]; cbn [rule_key] in Hkey;
    cbn [call].
  - unfold size, arg. now rewrite Hkey.
  - unfold match_all, arg. now rewrite Hkey.
  - unfold match_any_if_keyvalue_matches, arg. now rewrite Hkey.
  - unfold filter_compare, arg. now rewrite Hkey.
Qed.


(** X17.  [match_any_if_keyvalue_matches] reads [match_key] before the
    scan and the [args] list inside it: with a rule that has [match_key]
    but no [args] entry it passes on the empty actual list and raises
    [KeyError] at the first element of every other one. *)
Theorem keyvalue_missing_args (audit_id : string) (args : dict)
  (d : dict) (key : value)
  (Hspec : Py.lookup "match_any_if_keyvalue_matches" args = Some (VDict d))
  (Hkey : Py.lookup "match_key" d = Some key)
  (Hargs : Py.lookup "args" d = None) :
  match_any_if_keyvalue_matches run format audit_id (VList []) args =
    Ok (true, "Check Passed") /\
  forall a A,
    match_any_if_keyvalue_matches run format audit_id (VList (a :: A)) args =
    Raise KeyError.
Proof.
  unfold match_any_if_keyvalue_matches, arg. rewrite Hspec.
  cbn [bind Py.getitem]. rewrite Hkey. cbn [bind Py.iter]. split.
  - reflexivity.
  - intros a A. cbn [keyvalue_outer]. unfold arg. rewrite Hspec.
    cbn [bind Py.getitem]. now rewrite Hargs.
Qed.

End Further.

(** ** The scans of match_all and match_any, and the sorts of match *)



Section Scans.

Variable run : string -> value -> value -> res verdict.
Variable int_of_str : string -> option Z.
Variable apply_case_on_string : value -> value -> value.
Variable str : value -> string.
Variable format : string -> list value -> string.

(** *** match_all *)







(** *** match_any *)







(** *** match: the sorts *)


End Scans.

(** ** Examples

    The handlers run on concrete checks, with the orchestrator of
    [Sample]. *)

(** The scenarios of the handler's documentation: the named service is
    found and matches, is found and differs, is not there. *)
Example keyvalue_found_matched :
  match_any_if_keyvalue_matches Sample.run Sample.format "check"
    (VList [service "hjk" false; service "abc" false])
    (keyvalue_args [service "abc" false]) = Ok (true, "Check Passed").
Proof. reflexivity. Qed.

Example keyvalue_found_mismatched :
  match_any_if_keyvalue_matches Sample.run Sample.format "check"
    (VList [service "hjk" false; service "abc" true])
    (keyvalue_args [service "abc" false]) = keyvalue_failure.
Proof. reflexivity. Qed.

Example keyvalue_not_found :
  match_any_if_keyvalue_matches Sample.run Sample.format "check"
    (VList [service "hjk" false; service "bnm" false])
    (keyvalue_args [service "abc" false]) = Ok (true, "Check Passed").
Proof. reflexivity. Qed.

Example match_all_scenario :
  match_all Sample.run Sample.apply_case_on_string Sample.format "check"
    (VList [named "abc"; named "xyz"; named "qqq"])
    [("match_all", VList [named "abc"; named "xyz"])] =
    Ok (true, "Check Passed") /\
  match_all Sample.run Sample.apply_case_on_string Sample.format "check"
    (VList [named "abc"])
    [("match_all", VList [named "abc"; named "xyz"])] =
    Ok (false, "Check failed, got={0}").
Proof. split; reflexivity. Qed.

(** *** Instances of the properties *)

Lemma size_verdict_witness :
  verdict_of (size Sample.run Sample.str Sample.format "check"
                (VList [VInt 1; VInt 2; VInt 3])
                [("type", VStr "list"); ("size", VInt 3)]) =
  verdict_of (Sample.run "check"
                (VDict [("type", VStr "number"); ("match", VInt 3)])
                (VInt 3)).
Proof.
  apply (size_verdict Sample.run Sample.str Sample.format "check"
           [VInt 1; VInt 2; VInt 3] (VInt 3)).
  reflexivity.
Defined.

Lemma match_rejects_non_list_witness :
  match_ Sample.run Sample.int_of_str Sample.format "check" (VStr "abc")
    [("match", VList [VStr "abc"])] =
  Outcome (VStr "abc") [("match", VList [VStr "abc"])]
    (Ok (false, "list::match failure. {0} is not an instance of list")) /\
  match_ Sample.run Sample.int_of_str Sample.format "check" (VList [])
    [("match", VList [VStr "abc"])] =
  Outcome (VList []) [("match", VList [VStr "abc"])]
    (Ok (false, "list::match failure. {0} is not an instance of list")).
Proof.
  split.
  - apply (match_rejects_non_list Sample.run Sample.int_of_str Sample.format). left.
    reflexivity.
  - apply (match_rejects_non_list Sample.run Sample.int_of_str Sample.format). right.
    reflexivity.
Defined.

Lemma match_numeric_short_circuit_witness :
  match_ Sample.run Sample.int_of_str Sample.format "check"
    (VList [VStr "3"; VInt 1; VInt 2]) [("match", VList [VInt 3; VInt 7])] =
  Outcome (VList [VStr "3"; VInt 1; VInt 2])
    [("match", VList [VInt 3; VInt 7])] (Ok (true, "Check Passed")).
Proof.
  apply (match_numeric_short_circuit Sample.run Sample.int_of_str Sample.format "check"
           (VStr "3") [VInt 1; VInt 2] [("match", VList [VInt 3; VInt 7])]
           3 (VInt 3) "number::match"); reflexivity.
Defined.

Lemma filter_compare_refines_witness :
  filter_compare Sample.run "check" (VList [named "abc"; named "xyz"])
    filter_args =
  filter_compare_spec Sample.run "check" [named "abc"; named "xyz"]
    (named "abc") [("size", VInt 1)] /\
  filter_compare_spec Sample.run "check" [named "abc"; named "xyz"]
    (named "abc") [("size", VInt 1)] = Ok (true, "Check Passed").
Proof.
  split; [|reflexivity].
  apply (filter_compare_refines Sample.run "check"
           [named "abc"; named "xyz"] filter_args
           (VDict [("filter", named "abc");
                   ("compare", VDict [("size", VInt 1)])]));
    try reflexivity.
Defined.

Lemma keyvalue_tri_state_witness :
  match_any_if_keyvalue_matches Sample.run Sample.format "check"
    (VList [service "hjk" false; service "abc" true])
    (keyvalue_args [service "abc" false]) = keyvalue_failure.
Proof.
  apply (proj1 (proj2
    (keyvalue_tri_state Sample.run Sample.format "check"
       [service "hjk" false; service "abc" true] [service "abc" false]
       (keyvalue_args [service "abc" false])
       (VDict [("match_key", VStr "name");
               ("args", VList [service "abc" false])])
       (VStr "name") eq_refl eq_refl eq_refl))).
  - intros a e [<-|[<-|[]]] [<-|[]].
    + exists KeyAbsent. split; [reflexivity|discriminate].
    + exists Mismatched. split; [reflexivity|discriminate].
  - exists (service "abc" true), (service "abc" false).
    repeat split; cbn; auto.
Defined.

(** C1, as stated, fails: a delegated comparison that succeeds with the
    sentinel message does not make the handler pass; with a failed
    comparison after it the handler fails. *)
Lemma keyvalue_sentinel_counterexample :
  verdict_of (Sample.sentinel_run "check"
                (keyvalue_rule (VBool false) (service "abc" false))
                (service "abc" false)) = Ok true /\
  match_any_if_keyvalue_matches Sample.sentinel_run Sample.format "check"
    (VList [service "abc" false; service "abc" true])
    (keyvalue_args [service "abc" false]) = keyvalue_failure.
Proof. split; reflexivity. Qed.

Lemma keyvalue_missing_key_witness :
  match_any_if_keyvalue_matches Sample.run Sample.format "check"
    (VList ([service "hjk" false] ++
            VDict [("running", VBool false)] :: [service "abc" false]))
    (keyvalue_args [service "abc" false]) = Raise KeyError /\
  match_any_if_keyvalue_matches Sample.run Sample.format "check"
    (VList ([service "hjk" false] ++ VStr "abc" :: [service "abc" false]))
    (keyvalue_args [service "abc" false]) = Raise TypeError.
Proof.
  split.
  - apply (keyvalue_missing_key Sample.run Sample.format "check"
             [service "hjk" false] [service "abc" false] []
             (VDict [("running", VBool false)]) (service "abc" false)
             (keyvalue_args [service "abc" false])
             (VDict [("match_key", VStr "name");
                     ("args", VList [service "abc" false])])
             "name" false KeyError); try reflexivity.
    left. exists [("running", VBool false)]. repeat split.
  - apply (keyvalue_missing_key Sample.run Sample.format "check"
             [service "hjk" false] [service "abc" false] []
             (VStr "abc") (service "abc" false)
             (keyvalue_args [service "abc" false])
             (VDict [("match_key", VStr "name");
                     ("args", VList [service "abc" false])])
             "name" false TypeError); try reflexivity.
    right. split; reflexivity.
Defined.

(** C10, as stated, fails: an actual element without the [match_key]
    field does not make the handler raise when the list of expected sets
    is empty, nor when an earlier element has made the handler pass; and
    an expected set without the field does match an element whose
    [match_key] value is [None]. *)
Lemma keyvalue_missing_key_counterexample :
  match_any_if_keyvalue_matches Sample.run Sample.format "check"
    (VList [VDict [("running", VBool false)]]) (keyvalue_args []) =
    Ok (true, "Check Passed") /\
  match_any_if_keyvalue_matches Sample.run Sample.format "check"
    (VList [service "abc" false; VDict [("running", VBool true)]])
    (keyvalue_args [service "abc" false]) = Ok (true, "Check Passed") /\
  match_any_if_keyvalue_matches Sample.run Sample.format "check"
    (VList [VDict [("name", VNone); ("running", VBool true)]])
    (keyvalue_args [VDict [("running", VBool false)]]) = keyvalue_failure.
Proof. repeat split. Qed.

Lemma match_multiset_witness :
  o_ret (match_ Sample.run Sample.int_of_str Sample.format "check"
           (VList [VInt 3; VInt 1; VInt 2])
           [("match", VList [VInt 2; VInt 3; VInt 1])]) =
    Ok (true, "Check Passed") /\
  exists l',
    o_ret (match_ Sample.run Sample.int_of_str Sample.format "check"
             (VList [VStr "b"; VStr "a"])
             [("match", VList [VStr "a"; VStr "c"])]) =
    Ok (false, Sample.format "list::match failure. Got={0}" [VList l']).
Proof.
  split.
  - apply (proj1
      (match_multiset Sample.run Sample.int_of_str Sample.format "check" (VInt 3)
         [VInt 1; VInt 2] [VInt 2; VInt 3; VInt 1]
         [("match", VList [VInt 2; VInt 3; VInt 1])]
         eq_refl (or_introl eq_refl) eq_refl)).
    apply (Permutation_cons_app [VInt 2] [VInt 1]). apply perm_swap.
  - apply (proj2
      (match_multiset Sample.run Sample.int_of_str Sample.format "check" (VStr "b")
         [VStr "a"] [VStr "a"; VStr "c"]
         [("match", VList [VStr "a"; VStr "c"])]
         eq_refl (or_intror eq_refl) eq_refl)).
    intros Hp.
    assert (Hin : In (VStr "b") [VStr "a"; VStr "c"])
      by (eapply Permutation_in; [exact Hp|now left]).
    destruct Hin as [H|[H|[]]]; discriminate.
Defined.

(** C2.  [match] is documented as true only if the lists are exactly
    equal, and C2 asks for fail whenever the multiset contents differ.
    The early return of the numeric fast path breaks this: the actual
    list [[1, 2]] against the expected list [[1, 3]] passes, because the
    first elements agree as numbers and the rest is never compared. *)
Lemma match_fast_path_bug :
  ~ Permutation [VInt 1; VInt 2] [VInt 1; VInt 3] /\
  match_ Sample.run Sample.int_of_str Sample.format "check" (VList [VInt 1; VInt 2])
    [("match", VList [VInt 1; VInt 3])] =
  Outcome (VList [VInt 1; VInt 2]) [("match", VList [VInt 1; VInt 3])]
    (Ok (true, "Check Passed")).
Proof.
  split; [|reflexivity].
  intros Hp.
  assert (Hin : In (VInt 2) [VInt 1; VInt 3])
    by (eapply Permutation_in; [exact Hp|right; now left]).
  destruct Hin as [H|[H|[]]]; discriminate.
Qed.

(** Lists of mappings are sorted by the first key of the first actual
    mapping only.  Two lists with the same content in which two mappings
    agree on that key are each left in their own order by the stable sort
    and then compare unequal. *)
Example match_dict_ties :
  Permutation [endpoint "abc" 80; endpoint "abc" 443]
              [endpoint "abc" 443; endpoint "abc" 80] /\
  match_ Sample.run Sample.int_of_str Sample.format "check"
    (VList [endpoint "abc" 80; endpoint "abc" 443])
    [("match", VList [endpoint "abc" 443; endpoint "abc" 80])] =
  Outcome (VList [endpoint "abc" 80; endpoint "abc" 443])
    [("match", VList [endpoint "abc" 443; endpoint "abc" 80])]
    (Ok (false, "list::match failure. Got={0}")).
Proof. split; [apply perm_swap|reflexivity]. Qed.

(** *** Instances of the further properties *)

Lemma match_all_pass_extends_witness :
  match_all Sample.run Sample.apply_case_on_string Sample.format "check"
    (VList [VStr "x"]) [("match_all", VList [VDict [("port", VInt 80)]])] =
    Raise TypeError /\
  match_all Sample.run Sample.apply_case_on_string Sample.format "check"
    (VList ([VDict [("port", VInt 80)]] ++ [VStr "x"]))
    [("match_all", VList [VDict [("port", VInt 80)]])] =
    Ok (true, "Check Passed").
Proof.
  split; [reflexivity|].
  apply (match_all_pass_extends Sample.run Sample.apply_case_on_string
           Sample.format "check" [VDict [("port", VInt 80)]] [VStr "x"]
           [("match_all", VList [VDict [("port", VInt 80)]])]
           "Check Passed").
  reflexivity.
Defined.


Lemma match_all_empty_witness :
  match_all Sample.run Sample.apply_case_on_string Sample.format "check"
    VNone [("match_all", VList [])] = Ok (true, "Check Passed") /\
  match_all Sample.run Sample.apply_case_on_string Sample.format "check"
    (VList []) [("match_all", VList [named "abc"])] =
  Ok (false, Sample.format "Check failed, got={0}" [VList []]).
Proof.
  split.
  - apply (proj1 (match_all_empty Sample.run Sample.apply_case_on_string
                    Sample.format "check" []
                    [("match_all", VList [])] eq_refl) eq_refl).
  - apply (proj2 (match_all_empty Sample.run Sample.apply_case_on_string
                    Sample.format "check" [named "abc"]
                    [("match_all", VList [named "abc"])] eq_refl)).
    discriminate.
Defined.

Lemma match_any_pass_extends_witness :
  match_any Sample.run Sample.int_of_str Sample.apply_case_on_string Sample.format "check"
    (VList [VStr "y"]) [("match_any", VList [VStr "x"; VDict []])] =
    Raise IndexError /\
  match_any Sample.run Sample.int_of_str Sample.apply_case_on_string Sample.format "check"
    (VList ([VStr "x"] ++ [VStr "y"]))
    [("match_any", VList [VStr "x"; VDict []])] = Ok (true, "Check Passed").
Proof.
  split; [reflexivity|].
  apply (match_any_pass_extends Sample.run Sample.int_of_str Sample.apply_case_on_string
           Sample.format "check" [VStr "x"] [VStr "y"]
           [("match_any", VList [VStr "x"; VDict []])] "Check Passed").
  reflexivity.
Defined.



Lemma match_length_mismatch_witness :
  o_ret (match_ Sample.run Sample.int_of_str Sample.format "check"
           (VList [VStr "a"; VStr "b"]) [("match", VList [VStr "a"])]) =
    Ok (false, "list::match failure. Got={0}") /\
  o_ret (match_ Sample.run Sample.int_of_str Sample.format "check"
           (VList [VStr "a"; VStr "b"]) [("match", VList [VStr "a"])]) <>
    Ok (true, "Check Passed").
Proof.
  split; [reflexivity|].
  apply (match_length_mismatch Sample.run Sample.int_of_str Sample.format "check" (VStr "a")
           [VStr "b"] [VStr "a"] [("match", VList [VStr "a"])] eq_refl).
  - cbn. lia.
  - discriminate.
Defined.

Lemma match_expected_key_error_witness :
  match_ Sample.run Sample.int_of_str Sample.format "check"
    (VList [endpoint "b" 1; endpoint "a" 2])
    [("match", VList ([endpoint "a" 2] ++ VDict [("port", VInt 1)] :: []))] =
  Outcome (VList [endpoint "a" 2; endpoint "b" 1])
    [("match", VList ([endpoint "a" 2] ++ VDict [("port", VInt 1)] :: []))]
    (Raise KeyError).
Proof.
  apply (match_expected_key_error Sample.run Sample.int_of_str Sample.format "check" "name"
           (VStr "b") [("port", VInt 1)] [endpoint "a" 2]
           [endpoint "a" 2; endpoint "b" 1] [endpoint "a" 2] []
           (VDict [("port", VInt 1)])
           [("match",
             VList ([endpoint "a" 2] ++ VDict [("port", VInt 1)] :: []))]
           KeyError); try reflexivity.
  intros x [<-|[]]. reflexivity.
Defined.

Lemma match_ignores_orchestrator_witness :
  match_ Sample.run Sample.int_of_str Sample.format "check" (VList [VStr "b"; VStr "a"])
    [("match", VList [VStr "a"; VStr "b"])] =
  match_ Sample.sentinel_run Sample.int_of_str Sample.format "check"
    (VList [VStr "b"; VStr "a"]) [("match", VList [VStr "a"; VStr "b"])].
Proof.
  apply (match_ignores_orchestrator Sample.run Sample.int_of_str Sample.format
           Sample.sentinel_run "check" (VStr "b") [VStr "a"]).
  reflexivity.
Defined.

Lemma match_mappings_distinct_keys_witness :
  o_ret (match_ Sample.run Sample.int_of_str Sample.format "check"
           (VList [endpoint "b" 80; endpoint "a" 443])
           [("match", VList [endpoint "a" 443; endpoint "b" 80])]) =
  Ok (true, "Check Passed").
Proof.
  apply (match_mappings_distinct_keys Sample.run Sample.int_of_str Sample.format "check"
           "name" (VStr "b") [("port", VInt 80)] [endpoint "a" 443]
           [endpoint "a" 443; endpoint "b" 80]
           [("match", VList [endpoint "a" 443; endpoint "b" 80])] eq_refl).
  - apply perm_swap.
  - left. intros x [<-|[<-|[]]]; eexists; reflexivity.
  - cbn. repeat constructor; cbn; intuition discriminate.
  - intros x [<-|[<-|[]]]; reflexivity.
Defined.

Lemma keyvalue_order_independent_witness :
  exists status,
    verdict_of (match_any_if_keyvalue_matches Sample.run Sample.format
                  "check" (VList [service "abc" true; service "abc" false])
                  (keyvalue_args [service "abc" false; service "xyz" true])) =
      Ok status /\
    verdict_of (match_any_if_keyvalue_matches Sample.run Sample.format
                  "check" (VList [service "abc" false; service "abc" true])
                  (keyvalue_args [service "xyz" true; service "abc" false])) =
      Ok status /\
    (status = true <->
     (exists a e,
        In a [service "abc" true; service "abc" false] /\
        In e [service "abc" false; service "xyz" true] /\
        classify Sample.run "check" (VBool false) (VStr "name") a e =
        Ok Matched) \/
     (forall a e,
        In a [service "abc" true; service "abc" false] ->
        In e [service "abc" false; service "xyz" true] ->
        classify Sample.run "check" (VBool false) (VStr "name") a e <>
        Ok Mismatched)).
Proof.
  apply (keyvalue_order_independent Sample.run Sample.format "check"
           [service "abc" true; service "abc" false]
           [service "abc" false; service "abc" true]
           [service "abc" false; service "xyz" true]
           [service "xyz" true; service "abc" false]
           (keyvalue_args [service "abc" false; service "xyz" true])
           (keyvalue_args [service "xyz" true; service "abc" false])
           (VDict [("match_key", VStr "name");
                   ("args", VList [service "abc" false; service "xyz" true])])
           (VDict [("match_key", VStr "name");
                   ("args", VList [service "xyz" true; service "abc" false])])
           (VStr "name")); try reflexivity; try apply perm_swap.
  intros a e [<-|[<-|[]]] [<-|[<-|[]]]; reflexivity.
Defined.

Lemma filter_compare_idempotent_witness :
  filter_compare Sample.run "check"
    (VList (filter (mapping_match Sample.run "check" (named "abc"))
                   [named "abc"; named "xyz"])) filter_args =
  filter_compare Sample.run "check" (VList [named "abc"; named "xyz"])
    filter_args.
Proof.
  apply (filter_compare_idempotent Sample.run "check"
           [named "abc"; named "xyz"] filter_args
           (VDict [("filter", named "abc");
                   ("compare", VDict [("size", VInt 1)])])
           (named "abc")); reflexivity.
Defined.

Lemma filter_compare_rule_witness :
  exists rule,
    filter_compare Sample.run "check" (VList [VInt 1; VInt 2])
      [("filter_compare",
        VDict [("filter", VDict []);
               ("compare",
                VDict [("type", VStr "number"); ("match", VInt 7)])])] =
    Sample.run "check" (VDict rule)
      (VList (filter (mapping_match Sample.run "check" (VDict []))
                     [VInt 1; VInt 2])) /\
    forall k,
      Py.lookup k rule =
      match Py.lookup k [("type", VStr "number"); ("match", VInt 7)] with
      | Some v => Some v
      | None => if String.eqb k "type" then Some (VStr "list") else None
      end.
Proof.
  apply (filter_compare_rule Sample.run "check" [VInt 1; VInt 2]
           [("filter_compare",
             VDict [("filter", VDict []);
                    ("compare",
                     VDict [("type", VStr "number"); ("match", VInt 7)])])]
           (VDict [("filter", VDict []);
                   ("compare",
                    VDict [("type", VStr "number"); ("match", VInt 7)])])
           (VDict []) [("type", VStr "number"); ("match", VInt 7)]);
    try reflexivity.
  cbn. repeat constructor; cbn; intuition discriminate.
Defined.

Lemma missing_rule_key_witness :
  call Sample.run Sample.int_of_str Sample.apply_case_on_string Sample.str
       Sample.format Size "check" VNone [("type", VStr "list")] =
    Raise KeyError /\
  call Sample.run Sample.int_of_str Sample.apply_case_on_string Sample.str
       Sample.format FilterCompare "check" (VInt 3)
       [("type", VStr "list")] = Raise KeyError.
Proof.
  split.
  - apply (missing_rule_key Sample.run Sample.int_of_str
             Sample.apply_case_on_string Sample.str Sample.format Size
             "check" VNone [("type", VStr "list")]);
      [now left|reflexivity].
  - apply (missing_rule_key Sample.run Sample.int_of_str
             Sample.apply_case_on_string Sample.str Sample.format
             FilterCompare "check" (VInt 3) [("type", VStr "list")]);
      [tauto|reflexivity].
Defined.


Lemma keyvalue_missing_args_witness :
  match_any_if_keyvalue_matches Sample.run Sample.format "check" (VList [])
    [("match_any_if_keyvalue_matches", VDict [("match_key", VStr "name")])] =
    Ok (true, "Check Passed") /\
  forall a A,
    match_any_if_keyvalue_matches Sample.run Sample.format "check"
      (VList (a :: A))
      [("match_any_if_keyvalue_matches",
        VDict [("match_key", VStr "name")])] = Raise KeyError.
Proof.
  apply (keyvalue_missing_args Sample.run Sample.format "check"
           [("match_any_if_keyvalue_matches",
             VDict [("match_key", VStr "name")])]
           [("match_key", VStr "name")] (VStr "name")); reflexivity.
Defined.

(** *** Instances for match_all, match_any and the sorts of match *)







(** A [match] rule nested in [filter_compare]: the call leaves the
    caller's [compare] list sorted. *)
Example filter_compare_nested_match_sorts :
  o_args
    (filter_compare_nested_match Sample.run Sample.int_of_str Sample.format
       "check" (VList [named "b"; named "a"])
       [("filter_compare",
         VDict [("filter", VDict []);
                ("compare",
                 VDict [("match", VList [named "b"; named "a"])])])]) =
  [("filter_compare",
    VDict [("filter", VDict []);
           ("compare", VDict [("match", VList [named "a"; named "b"])])])].
Proof. reflexivity. Qed.
